(** * The Moodle integrated channel: client and content-metadata transmitter

    A shallow embedding of
      - [integrated_channels/moodle/client.py]
        ([moodle_request_wrapper] and [MoodleAPIClient]), and
      - [integrated_channels/moodle/transmitters/content_metadata.py]
        ([MoodleContentMetadataTransmitter._prepare_items_for_transmission]),
    followed by the properties of the specification that concern them.

    Python objects that are mutated through references (the dictionaries
    handed to the client, the dictionary filled by the transmitter) live in
    a store and are named by their location.  Methods of the client run in
    a state-and-exception monad whose state holds [self.token], the store
    and the list of HTTP requests sent so far. *)

From Stdlib Require Import Ascii DecimalString DecimalNat.
From stdpp Require Import base list strings.

Set Warnings "-register-all".

(** ** Python values *)

(** What [json.loads] / [Response.json()] produce.  Numbers are integers
    (no claim depends on a fractional number). *)
Inductive json : Type :=
  | JNull
  | JBool (b : bool)
  | JNum (z : Z)
  | JStr (s : string)
  | JArr (l : list json)
  | JObj (o : list (string * json)).

(** A [requests.Response], with its body kept in decoded form: [None] is a
    text that is not JSON (decoding it raises [ValueError]). *)
Record response : Type := Response {
  status_code : nat;
  body : option json
}.

(** The objects that flow through the client: plain data, or a response. *)
Inductive pyobj : Type :=
  | PVal (v : json)
  | PResp (r : response).

(** A Python [dict] with string keys: insertion-ordered, one binding per
    key.  A list of pairs handed to [urlencode] has the same shape. *)
Definition dict : Type := list (string * pyobj).

Inductive exn : Type :=
  | KeyError
  | IndexError
  | TypeError
  | AttributeError
  | ValueError
  | RequestException
  | HTTPError
  | ConnectionError.

(** [requests.HTTPError] and [requests.ConnectionError] are subclasses of
    [requests.RequestException]. *)
Definition is_RequestException (e : exn) : bool :=
  match e with
  | RequestException | HTTPError | ConnectionError => true
  | _ => false
  end.

Inductive outcome (A : Type) : Type :=
  | Ok (a : A)
  | Raise (e : exn).
Arguments Ok {A} a.
Arguments Raise {A} e.

(** [bool(v)] *)
Definition truthy (v : json) : bool :=
  match v with
  | JNull => false
  | JBool b => b
  | JNum z => negb (Z.eqb z 0)
  | JStr s => negb (String.eqb s "")
  | JArr l => match l with [] => false | _ => true end
  | JObj o => match o with [] => false | _ => true end
  end.

(** [v == s] for a string literal [s] *)
Definition eq_str (v : json) (s : string) : bool :=
  match v with
  | JStr t => String.eqb t s
  | _ => false
  end.

Fixpoint assoc {V : Type} (k : string) (l : list (string * V)) : option V :=
  match l with
  | [] => None
  | (k', v) :: l' => if String.eqb k k' then Some v else assoc k l'
  end.

(** [d[k] = v]: an existing key keeps its place, a new one goes last. *)
Fixpoint dict_set (k : string) (v : pyobj) (d : dict) : dict :=
  match d with
  | [] => [(k, v)]
  | (k', v') :: d' =>
      if String.eqb k k' then (k, v) :: d' else (k', v') :: dict_set k v d'
  end.

(** [list(d)] *)
Definition keys (d : dict) : list string := d.*1.

(** [d.update(other)] *)
Definition dict_update (d other : dict) : dict :=
  foldl (fun acc kv => dict_set kv.1 kv.2 acc) d other.

(** [v[k]] with a string subscript *)
Definition getitem_str (v : json) (k : string) : outcome json :=
  match v with
  | JObj o => match assoc k o with Some x => Ok x | None => Raise KeyError end
  | _ => Raise TypeError
  end.

(** [v[0]] *)
Definition getitem_0 (v : json) : outcome json :=
  match v with
  | JArr l => match l with x :: _ => Ok x | [] => Raise IndexError end
  | JStr s =>
      match s with
      | String c _ => Ok (JStr (String c ""))
      | EmptyString => Raise IndexError
      end
  | JObj _ => Raise KeyError
  | _ => Raise TypeError
  end.

(** [o.json()]: only a response has that method. *)
Definition call_json (o : pyobj) : outcome json :=
  match o with
  | PResp r => match body r with Some b => Ok b | None => Raise ValueError end
  | PVal _ => Raise AttributeError
  end.

(** [b.get('errorcode')]: only a dict has [get]; a missing key gives [None]. *)
Definition call_get (b : json) (k : string) : outcome json :=
  match b with
  | JObj o => Ok (default JNull (assoc k o))
  | _ => Raise AttributeError
  end.

(** ** Strings *)

(** [sub in s] *)
Fixpoint contains (sub s : string) : bool :=
  String.prefix sub s ||
  match s with
  | EmptyString => false
  | String _ s' => contains sub s'
  end.

(** [s.replace(old, new)] for a non-empty [old]: occurrences are replaced
    from the left, without overlap.  [skip] counts the characters of a
    matched occurrence that remain to be dropped. *)
Fixpoint replace_from (old new s : string) (skip : nat) : string :=
  match s with
  | EmptyString => ""
  | String c s' =>
      match skip with
      | S n => replace_from old new s' n
      | O =>
          if String.prefix old s
          then new +:+ replace_from old new s' (String.length old - 1)
          else String c (replace_from old new s' 0)
      end
  end.

Definition replace (old new s : string) : string := replace_from old new s 0.

(** [str(n)] for a natural number *)
Definition str_nat (n : nat) : string := NilEmpty.string_of_uint (Nat.to_uint n).

(** ** The store *)

Abbreviation loc := nat.
Abbreviation store := (list dict).

(** A new object takes the next free location. *)
Definition alloc (d : dict) (h : store) : loc * store := (length h, h ++ [d]).

(** Contents of the object at [l] (empty for a location never allocated,
    which no reference denotes). *)
Definition deref (h : store) (l : loc) : dict := default [] (h !! l).

(** ** content_metadata.py *)

Module Transmitter.

(** ['courses[{0}][{1}]'.format(index, key)] *)
Definition new_key (index : nat) (key : string) : string :=
  "courses[" +:+ str_nat index +:+ "][" +:+ key +:+ "]".

(** The inner loop: [for key in item: items[new_key] = item[key]], where
    [items] is the object at location [items]. *)
Definition copy_item (index : nat) (item : dict) (items : loc) (h : store) : store :=
  foldl
    (fun h key =>
       match assoc key item with
       | Some v => <[items := dict_set (new_key index key) v (deref h items)]> h
       | None => h
       end)
    h (keys item).

(** The outer loop over [enumerate(channel_metadata_items)]; the state is
    [course_list] and the store. *)
Fixpoint transmit_loop (index : nat) (channel_metadata_items : list dict)
    (items : loc) (course_list : list loc) (h : store) : list loc * store :=
  match channel_metadata_items with
  | [] => (course_list, h)
  | item :: rest =>
      let h := copy_item index item items h in
      let course_list := course_list ++ [items] in
      transmit_loop (S index) rest items course_list h
  end.

Definition _prepare_items_for_transmission
    (channel_metadata_items : list dict) (h : store) : list loc * store :=
  let course_list := [] in
  let '(items, h) := alloc [] h in
  transmit_loop 0 channel_metadata_items items course_list h.

End Transmitter.

(** ** client.py *)

(** The fields of the enterprise configuration that the client reads. *)
Record config : Type := Config {
  moodle_base_url : string;
  service_short_name : string;
  username : string;
  password : string;
  config_token : json
}.

Inductive http_method : Type := GET | POST.

(** A call of [requests.get] or [requests.post] with its keyword arguments
    (an absent argument is empty). *)
Record request : Type := Request {
  meth : http_method;
  url : string;
  params : dict;
  headers : list (string * string);
  data : dict
}.

(** The client instance and its surroundings: [self.token], the requests
    sent so far (oldest first) and the store of dictionaries. *)
Record state : Type := State {
  token : json;
  sent : list request;
  heap : store
}.

(** A method runs from a state and ends with a value or an exception, in
    a new state. *)
Definition M (A : Type) : Type := state -> outcome A * state.

Definition raise {A} (e : exn) : M A := fun s => (Raise e, s).

Definition lift {A} (o : outcome A) : M A := fun s => (o, s).

#[global] Instance M_ret : MRet M := fun A a s => (Ok a, s).

#[global] Instance M_bind : MBind M := fun A B f m s =>
  match m s with
  | (Ok a, s') => f a s'
  | (Raise e, s') => (Raise e, s')
  end.

Definition get_token : M json := fun s => (Ok (token s), s).

Definition set_token (t : json) : M unit :=
  fun s => (Ok tt, State t (sent s) (heap s)).

Definition load (l : loc) : M dict := fun s => (Ok (deref (heap s) l), s).

Definition store_at (l : loc) (d : dict) : M unit :=
  fun s => (Ok tt, State (token s) (sent s) (<[l := d]> (heap s))).

(** [d[k]] on a dictionary *)
Definition dict_getitem (d : dict) (k : string) : outcome pyobj :=
  match assoc k d with
  | Some v => Ok v
  | None => Raise KeyError
  end.

Definition str (s : string) : pyobj := PVal (JStr s).

Definition MOODLE_API_PATH : string := "/webservice/rest/server.php".

(** What surrounds a client instance.  [server] stands for the network and
    the vendor: given the requests sent so far, the last one being the
    current one, it gives either a response or no response at all (a
    transport failure, which [requests] raises as [ConnectionError]). *)
Record environment : Type := Environment {
  enterprise_configuration : config;  (* [self.enterprise_configuration] *)
  urlencode : dict -> string;         (* [urllib.parse.urlencode] *)
  urljoin : string -> string -> string; (* [urllib.parse.urljoin] *)
  server : list request -> option response
}.

Section Client.

Variable env : environment.

(** [requests.get(...)] / [requests.post(...)] *)
Definition send (r : request) : M response :=
  fun s =>
    let log := sent s ++ [r] in
    let s' := State (token s) log (heap s) in
    match server env log with
    | Some resp => (Ok resp, s')
    | None => (Raise ConnectionError, s')
    end.

(** [response.raise_for_status()] *)
Definition raise_for_status (r : response) : M unit :=
  if (400 <=? status_code r) && (status_code r <? 600)
  then raise HTTPError
  else mret tt.

Definition token_request : request :=
  Request POST
    (urljoin env (moodle_base_url (enterprise_configuration env)) "/login/token.php")
    [("service", str (service_short_name (enterprise_configuration env)))]
    [("Content-Type", "application/x-www-form-urlencoded")]
    [("username", str (username (enterprise_configuration env)));
     ("password", str (password (enterprise_configuration env)))].

(** The [try] block of [_get_access_token]: [KeyError] and [ValueError]
    are caught and turned into [RequestException]; anything else passes. *)
Definition token_of_response (r : response) : outcome json :=
  let attempt :=
    match call_json (PResp r) with
    | Ok data => getitem_str data "token"
    | Raise e => Raise e
    end in
  match attempt with
  | Ok t => Ok t
  | Raise KeyError | Raise ValueError => Raise RequestException
  | Raise e => Raise e
  end.

Definition _get_access_token : M json :=
  response ← send token_request ;
  _ ← raise_for_status response ;
  lift (token_of_response response).

(** The decorator.  [method] is the decorated function applied to its
    arguments; it is run once, or twice. *)
Definition moodle_request_wrapper (method : M pyobj) : M pyobj :=
  t ← get_token ;
  _ ← (if negb (truthy t)
        then (t' ← _get_access_token ; set_token t')
        else mret tt) ;
  response ← method ;
  body ← lift (call_json response) ;
  error_code ← lift (call_get body "errorcode") ;
  if truthy error_code && eq_str error_code "invalidtoken"
  then
    t' ← _get_access_token ;
    _ ← set_token t' ;
    method
  else mret response.

(** [json.loads(response.text)['courses'][0]['id']] *)
Definition first_course_id (r : response) : outcome json :=
  match body r with
  | None => Raise ValueError
  | Some d =>
      match getitem_str d "courses" with
      | Raise e => Raise e
      | Ok courses =>
          match getitem_0 courses with
          | Raise e => Raise e
          | Ok course => getitem_str course "id"
          end
      end
  end.

(** The body of [get_course_id], before decoration. *)
Definition get_course_id_undecorated (key : pyobj) : M pyobj :=
  t ← get_token ;
  let params :=
    [("wstoken", PVal t);
     ("wsfunction", str "core_course_get_courses_by_field");
     ("field", str "shortname");
     ("value", key);
     ("moodlewsrestformat", str "json")] in
  response ←
    send (Request GET (moodle_base_url (enterprise_configuration env)) params [] []) ;
  id ← lift (first_course_id response) ;
  mret (PVal id).

Definition get_course_id (key : pyobj) : M pyobj :=
  moodle_request_wrapper (get_course_id_undecorated key).

Definition _post (url : string) (additional_params : dict) : M pyobj :=
  t ← get_token ;
  let params := [("wstoken", PVal t); ("moodlewsrestformat", str "json")] in
  let params := dict_update params additional_params in
  response ←
    send (Request POST (url +:+ MOODLE_API_PATH +:+ "?" +:+ urlencode env params)
            [] [] []) ;
  mret (PResp response).

(** [serialized_data] is a reference to the caller's dictionary. *)
Definition create_content_metadata_undecorated (serialized_data : loc) : M pyobj :=
  d ← load serialized_data ;
  _ ← store_at serialized_data
         (dict_set "wsfunction" (str "core_course_create_courses") d) ;
  d ← load serialized_data ;
  response ← _post (moodle_base_url (enterprise_configuration env)) d ;
  mret response.

Definition create_content_metadata (serialized_data : loc) : M pyobj :=
  moodle_request_wrapper (create_content_metadata_undecorated serialized_data).

(** [for key in list(serialized_data): if 'shortname' in key: ...] of
    [update_content_metadata]; [ks] is the snapshot of the keys. *)
Fixpoint update_loop (serialized_data : loc) (ks : list string) : M unit :=
  match ks with
  | [] => mret tt
  | key :: ks' =>
      _ ← (if contains "shortname" key
       then
         d ← load serialized_data ;
         v ← lift (dict_getitem d key) ;
         moodle_course_id ← get_course_id v ;
         d ← load serialized_data ;
         store_at serialized_data
           (dict_set (replace "shortname" "id" key) moodle_course_id d)
       else mret tt) ;
      update_loop serialized_data ks'
  end.

Definition update_content_metadata_undecorated (serialized_data : loc) : M pyobj :=
  d ← load serialized_data ;
  _ ← update_loop serialized_data (keys d) ;
  d ← load serialized_data ;
  _ ← store_at serialized_data
         (dict_set "wsfunction" (str "core_course_update_courses") d) ;
  d ← load serialized_data ;
  _post (moodle_base_url (enterprise_configuration env)) d.

Definition update_content_metadata (serialized_data : loc) : M pyobj :=
  moodle_request_wrapper (update_content_metadata_undecorated serialized_data).

(** The loop of [delete_content_metadata], with [course_ids_to_delete]. *)
Fixpoint delete_loop (serialized_data : loc) (ks : list string)
    (course_ids_to_delete : dict) : M dict :=
  match ks with
  | [] => mret course_ids_to_delete
  | key :: ks' =>
      if contains "shortname" key
      then
        d ← load serialized_data ;
        v ← lift (dict_getitem d key) ;
        moodle_course_id ← get_course_id v ;
        delete_loop serialized_data ks'
          (course_ids_to_delete ++ [("courseids[]", moodle_course_id)])
      else delete_loop serialized_data ks' course_ids_to_delete
  end.

Definition delete_content_metadata_undecorated (serialized_data : loc) : M pyobj :=
  d ← load serialized_data ;
  course_ids_to_delete ← delete_loop serialized_data (keys d) [] ;
  let params := [("wsfunction", str "core_course_delete_courses")] in
  let url :=
    moodle_base_url (enterprise_configuration env) +:+ "?" +:+
    urlencode env course_ids_to_delete in
  _post url params.

Definition delete_content_metadata (serialized_data : loc) : M pyobj :=
  moodle_request_wrapper (delete_content_metadata_undecorated serialized_data).

(** [create_course_completion] and [delete_course_completion]: the body is
    [pass], so the method returns [None]; both are decorated. *)
Definition create_course_completion (user_id payload : pyobj) : M pyobj :=
  moodle_request_wrapper (mret (PVal JNull)).

Definition delete_course_completion (user_id payload : pyobj) : M pyobj :=
  moodle_request_wrapper (mret (PVal JNull)).

(** [__init__]: [self.token = enterprise_configuration.token or
    self._get_access_token()]. *)
Definition __init__ : M unit :=
  if truthy (config_token (enterprise_configuration env))
  then set_token (config_token (enterprise_configuration env))
  else (t ← _get_access_token ; set_token t).

End Client.

(** ** api/v1/views.py: the parameters of a request for coupon codes *)

Module CouponCodes.

Definition REQUIRED_PARAM_EMAIL : string := "email".
Definition REQUIRED_PARAM_ENTERPRISE_NAME : string := "enterprise_name".
Definition OPTIONAL_PARAM_NUMBER_OF_CODES : string := "number_of_codes".
Definition OPTIONAL_PARAM_NOTES : string := "notes".

(** [MISSING_REQUIRED_PARAMS_MSG.format(params)] *)
Definition MISSING_REQUIRED_PARAMS_MSG (params : string) : string :=
  "Some required parameter(s) missing: " +:+ params.

(** What [get_required_query_params] ends with: the four values, or
    [CodesAPIRequestError] with its message. *)
Inductive query_params : Type :=
  | Params (email enterprise_name number_of_codes notes : json)
  | CodesAPIRequestError (message : string).

(** [', '.join(name for name, present in parameter_state if not present)],
    put into the message. *)
Definition get_missing_params_message (parameter_state : list (string * bool)) : string :=
  let params :=
    String.concat ", "
      (List.map fst (List.filter (fun p => negb (snd p)) parameter_state)) in
  MISSING_REQUIRED_PARAMS_MSG params.

(** [get_request_value] belongs to [enterprise.utils]; here it is the
    request seen as a function of the name asked for and the default. *)
Definition get_required_query_params (get_request_value : string -> json -> json)
    : query_params :=
  let email := get_request_value REQUIRED_PARAM_EMAIL (JStr "") in
  let enterprise_name := get_request_value REQUIRED_PARAM_ENTERPRISE_NAME (JStr "") in
  let number_of_codes := get_request_value OPTIONAL_PARAM_NUMBER_OF_CODES (JStr "") in
  let notes := get_request_value OPTIONAL_PARAM_NOTES (JStr "") in
  if negb (truthy email && truthy enterprise_name)
  then
    CodesAPIRequestError
      (get_missing_params_message
         [(REQUIRED_PARAM_EMAIL, truthy email);
          (REQUIRED_PARAM_ENTERPRISE_NAME, truthy enterprise_name)])
  else Params email enterprise_name number_of_codes notes.

End CouponCodes.

(** ** Notions used in the statements *)

(** No closing bracket occurs in the text. *)
Fixpoint bracket_free (s : string) : bool :=
  match s with
  | EmptyString => true
  | String c s' => negb (Ascii.eqb c "]"%char) && bracket_free s'
  end.

(** One round of the transmitter's inner loop, on the dictionary itself. *)
Definition copy_step (index : nat) (item : dict) (d : dict) (key : string) : dict :=
  match assoc key item with
  | Some v => dict_set (Transmitter.new_key index key) v d
  | None => d
  end.

(** How many of the requests in a log are of a given kind. *)
Fixpoint count (P : request -> bool) (log : list request) : nat :=
  match log with
  | [] => 0
  | r :: log' => (if P r then 1 else 0) + count P log'
  end.

(** The request of [get_course_id]: the only GET of the client. *)
Definition is_lookup (r : request) : bool :=
  match meth r with GET => true | POST => false end.

(** A request of [_post]: a POST without form data (the token exchange is
    a POST with the credentials as form data). *)
Definition is_api_post (r : request) : bool :=
  match meth r, data r with
  | POST, [] => true
  | _, _ => false
  end.

(** [m] adds at most [n] requests of kind [P] to the log. *)
Definition sends {A} (P : request -> bool) (n : nat) (m : M A) : Prop :=
  forall s, count P (sent (m s).2) <= count P (sent s) + n.

(** The first two lines of the decorator's [inner]. *)
Definition ensure_token (env : environment) : M unit :=
  t ← get_token ;
  if negb (truthy t)
  then (t' ← _get_access_token env ; set_token t')
  else mret tt.

(** The decorator's test on what a run of the method gave: a response
    whose body is a dictionary with [errorcode] equal to ['invalidtoken']. *)
Definition token_expired (o : outcome pyobj) : bool :=
  match o with
  | Ok response =>
      match call_json response with
      | Ok body =>
          match call_get body "errorcode" with
          | Ok error_code => truthy error_code && eq_str error_code "invalidtoken"
          | Raise _ => false
          end
      | Raise _ => false
      end
  | Raise _ => false
  end.

(** The request that [get_course_id] sends for [key] when the cached
    token is [t]. *)
Definition lookup_request (env : environment) (t : json) (key : pyobj) : request :=
  Request GET (moodle_base_url (enterprise_configuration env))
    [("wstoken", PVal t);
     ("wsfunction", str "core_course_get_courses_by_field");
     ("field", str "shortname");
     ("value", key);
     ("moodlewsrestformat", str "json")]
    [] [].

(** What [serialized_data['wsfunction'] = selector] does to the store. *)
Definition set_wsfunction (selector : string) (l : loc) (h : store) : store :=
  <[l := dict_set "wsfunction" (str selector) (deref h l)]> h.

(** The loop of [update_content_metadata] with the lookup as a parameter;
    [update_loop] is this loop with the decorated [get_course_id]. *)
Fixpoint update_loop_with (lookup : pyobj -> M pyobj) (serialized_data : loc)
    (ks : list string) : M unit :=
  match ks with
  | [] => mret tt
  | key :: ks' =>
      _ ← (if contains "shortname" key
       then
         d ← load serialized_data ;
         v ← lift (dict_getitem d key) ;
         moodle_course_id ← lookup v ;
         d ← load serialized_data ;
         store_at serialized_data
           (dict_set (replace "shortname" "id" key) moodle_course_id d)
       else mret tt) ;
      update_loop_with lookup serialized_data ks'
  end.

(** A decorated method sends at most two requests of kind [P], and at
    most one unless its first run met an expired token. *)
Definition at_most_twice (env : environment) (P : request -> bool)
    (method : M pyobj) : Prop :=
  forall s,
    count P (sent (moodle_request_wrapper env method s).2) <= count P (sent s) + 2 /\
    (token_expired (method (ensure_token env s).2).1 = false ->
     count P (sent (moodle_request_wrapper env method s).2) <= count P (sent s) + 1).

(** [m] leaves every dictionary of the store as it is. *)
Definition keeps_heap {A} (m : M A) : Prop :=
  forall s, heap (m s).2 = heap s.

(** [m] only adds to the log of requests. *)
Definition extends {A} (m : M A) : Prop :=
  forall s, exists more, sent (m s).2 = sent s ++ more.

(** Every request counts. *)
Definition any_request (r : request) : bool := true.

(** The parameters that [_post] hands to [urlencode]. *)
Definition post_params (t : json) (additional_params : dict) : dict :=
  dict_update [("wstoken", PVal t); ("moodlewsrestformat", str "json")]
    additional_params.

(** ** Concrete instances, for examples *)

(** The scenario of the specification. *)
Definition two_courses : list dict :=
  [[("shortname", str "CS101")];
   [("shortname", str "CS102"); ("fullname", str "Intro")]].


(** A configuration with a cached token. *)
Definition moodle : config :=
  Config "http://localhost" "edx" "ws_user" "ws_password" (JStr "cached").

(** Stand-ins for [urlencode] and [urljoin], without any escaping; they
    serve to run the examples. *)
Definition plain_str (o : pyobj) : string :=
  match o with
  | PVal (JStr s) => s
  | PVal (JNum z) => str_nat (Z.to_nat z)
  | _ => ""
  end.

Definition plain_urlencode (params : dict) : string :=
  String.concat "&" (map (fun kv => kv.1 +:+ "=" +:+ plain_str kv.2) params).

Definition plain_urljoin (base path : string) : string := base +:+ path.

(** A vendor that answers by the kind of the request alone. *)
Definition by_kind (to_lookup to_exchange to_post : response)
    (log : list request) : option response :=
  match last log with
  | Some r =>
      if is_lookup r then Some to_lookup
      else if is_api_post r then Some to_post
      else Some to_exchange
  | None => None
  end.

Definition demo (to_lookup to_exchange to_post : response) : environment :=
  Environment moodle plain_urlencode plain_urljoin
    (by_kind to_lookup to_exchange to_post).

Definition one_course : response :=
  Response 200 (Some (JObj [("courses", JArr [JObj [("id", JNum 7)]])])).

Definition no_course : response :=
  Response 200 (Some (JObj [("courses", JArr [])])).

Definition fresh_token : response :=
  Response 200 (Some (JObj [("token", JStr "fresh")])).

Definition login_refused : response :=
  Response 200
    (Some (JObj [("error", JStr "Invalid login, please try again");
                 ("errorcode", JStr "invalidlogin")])).

Definition token_rejected : response :=
  Response 200 (Some (JObj [("errorcode", JStr "invalidtoken")])).

(** A vendor that knows one course and rejects every token; one that
    knows no course; one that refuses the login. *)
Definition rejecting : environment := demo one_course fresh_token token_rejected.

Definition without_courses : environment := demo no_course fresh_token token_rejected.

Definition refusing : environment := demo one_course login_refused token_rejected.

(** A client with a cached token, and two dictionaries of the caller: at
    location 0 one with an identifier key, at location 1 one without. *)
Definition client : state :=
  State (JStr "cached") []
    [[("courses[0][shortname]", str "CS101")];
     [("courses[0][fullname]", str "Intro")]].

(** A vendor that answers the lookup, too, with an expired token. *)
Definition expiring : environment := demo token_rejected fresh_token token_rejected.

(** A client without a token, and a vendor that cannot be reached. *)
Definition fresh_client : state :=
  State JNull []
    [[("courses[0][shortname]", str "CS101")];
     [("courses[0][fullname]", str "Intro")]].

Definition unreachable : environment :=
  Environment moodle plain_urlencode plain_urljoin (fun _ => None).

(** A vendor that answers a POST with the list of the courses created. *)
Definition created : response :=
  Response 200 (Some (JArr [JObj [("id", JNum 7); ("shortname", JStr "CS101")]])).

Definition accepting : environment := demo one_course fresh_token created.

(** A vendor whose login page answers with a list. *)
Definition empty_list : response := Response 200 (Some (JArr [])).

Definition odd_login : environment := demo one_course empty_list token_rejected.

(** A vendor that reports an error other than an expired token. *)
Definition invalid_parameter : response :=
  Response 200 (Some (JObj [("errorcode", JStr "invalidparameter")])).

Definition failing : environment := demo one_course fresh_token invalid_parameter.

(** A request for codes without a name of the enterprise. *)
Definition nameless_request (name : string) (default : json) : json :=
  if String.eqb name "email" then JStr "bob@alice.com" else default.

(** * Properties *)

(** ** Dictionaries and strings *)

Lemma assoc_dict_set_eq k v d : assoc k (dict_set k v d) = Some v.
Proof.
  induction d as [|[k' v'] d IH]; simpl.
  - by rewrite String.eqb_refl.
  - destruct (String.eqb k k') eqn:E; simpl; rewrite ?String.eqb_refl, ?E; done.
Qed.

Lemma assoc_dict_set_ne k k' v d :
  k ≠ k' → assoc k' (dict_set k v d) = assoc k' d.
Proof.
  intros Hne. induction d as [|[k0 v0] d IH]; simpl.
  - apply String.eqb_neq in Hne. rewrite String.eqb_sym in Hne. by rewrite Hne.
  - destruct (String.eqb k k0) eqn:E; simpl.
    + apply String.eqb_eq in E as <-.
      assert (String.eqb k' k = false) as ->; [|done].
      apply String.eqb_neq. congruence.
    + by rewrite IH.
Qed.

Lemma assoc_Some_keys k v (d : dict) : assoc k d = Some v → k ∈ keys d.
Proof.
  unfold keys. induction d as [|[k' v'] d IH]; simpl; [done|].
  destruct (String.eqb k k') eqn:E.
  - apply String.eqb_eq in E as ->. intros _. apply list_elem_of_here.
  - intros H. apply list_elem_of_further. auto.
Qed.

Lemma deref_insert h l d : l < length h → deref (<[l := d]> h) l = d.
Proof. intros. unfold deref. by rewrite list_lookup_insert_eq. Qed.

Lemma deref_insert_ne h l l' d : l ≠ l' → deref (<[l := d]> h) l' = deref h l'.
Proof. intros. unfold deref. by rewrite list_lookup_insert_ne. Qed.

Lemma string_of_uint_bracket_free d :
  bracket_free (NilEmpty.string_of_uint d) = true.
Proof. induction d; simpl; auto. Qed.

Lemma str_nat_inj i j : str_nat i = str_nat j → i = j.
Proof.
  unfold str_nat. intros H.
  assert (Nat.to_uint i = Nat.to_uint j) as Hu.
  { apply (f_equal NilEmpty.uint_of_string) in H.
    rewrite !NilEmpty.usu in H. congruence. }
  apply (f_equal Nat.of_uint) in Hu.
  by rewrite !DecimalNat.Unsigned.of_to in Hu.
Qed.

(** A text is cut in one way only at its first closing bracket. *)
Lemma split_at_bracket d1 d2 r1 r2 :
  bracket_free d1 = true → bracket_free d2 = true →
  d1 +:+ String "]"%char r1 = d2 +:+ String "]"%char r2 → d1 = d2 ∧ r1 = r2.
Proof.
  revert d2. induction d1 as [|c d1 IH]; intros [|c2 d2]; simpl; intros H1 H2 E.
  - by simplify_eq.
  - by simplify_eq.
  - by simplify_eq.
  - apply andb_true_iff in H1 as [_ H1]. apply andb_true_iff in H2 as [_ H2].
    injection E as -> E. destruct (IH _ H1 H2 E) as [-> ->]. done.
Qed.

Lemma snoc_inj s t c : s +:+ String c "" = t +:+ String c "" → s = t.
Proof.
  revert t. induction s as [|a s IH]; intros [|b t]; simpl; intros E.
  - done.
  - injection E as _ E. by destruct t.
  - injection E as _ E. by destruct s.
  - injection E as -> E. f_equal. auto.
Qed.

Module TransmitterFacts.
Import Transmitter.

(** Distinct (index, field) pairs get distinct keys. *)
Lemma new_key_inj i k j k' : new_key i k = new_key j k' → i = j ∧ k = k'.
Proof.
  unfold new_key. intros E. simpl in E. injection E as E.
  apply split_at_bracket in E as [Hn Hk];
    [|apply string_of_uint_bracket_free..].
  split; [by apply str_nat_inj|].
  simpl in Hk. injection Hk as Hk. by apply snoc_inj in Hk.
Qed.

Lemma copy_item_deref index item items h :
  items < length h →
  length (copy_item index item items h) = length h ∧
  deref (copy_item index item items h) items
  = foldl (copy_step index item) (deref h items) (keys item).
Proof.
  unfold copy_item. generalize (keys item) as ks.
  intros ks. revert h. induction ks as [|key ks IH]; intros h Hl; simpl; [done|].
  unfold copy_step at 2. destruct (assoc key item) as [v|]; [|by apply IH].
  destruct (IH (<[items := dict_set (new_key index key) v (deref h items)]> h))
    as [Hlen Hd].
  { by rewrite length_insert. }
  rewrite Hlen, Hd, length_insert, deref_insert by done. done.
Qed.

Lemma copy_fold_hit index item ks d k v :
  assoc k item = Some v →
  k ∈ ks ∨ assoc (new_key index k) d = Some v →
  assoc (new_key index k) (foldl (copy_step index item) d ks) = Some v.
Proof.
  intros Hk. revert d. induction ks as [|a ks IH]; intros d H; simpl.
  - destruct H as [H|H]; [by apply elem_of_nil in H|done].
  - apply IH. unfold copy_step.
    destruct (decide (a = k)) as [->|Hne].
    + right. rewrite Hk. apply assoc_dict_set_eq.
    + destruct H as [H|H].
      * apply elem_of_cons in H as [?|?]; [congruence|by left].
      * right. destruct (assoc a item); [|done].
        rewrite assoc_dict_set_ne; [done|].
        intros E. by apply new_key_inj in E as [_ ?].
Qed.

Lemma copy_fold_miss index item ks d key :
  (∀ k', new_key index k' ≠ key) →
  assoc key (foldl (copy_step index item) d ks) = assoc key d.
Proof.
  intros Hne. revert d. induction ks as [|a ks IH]; intros d; simpl; [done|].
  rewrite IH. unfold copy_step. destruct (assoc a item); [|done].
  by apply assoc_dict_set_ne.
Qed.

Lemma transmit_loop_list items : ∀ index l cl h,
  (transmit_loop index items l cl h).1 = cl ++ replicate (length items) l.
Proof.
  induction items as [|item items IH]; intros; simpl.
  - by rewrite app_nil_r.
  - rewrite IH, <- app_assoc. done.
Qed.

Lemma transmit_loop_keeps items : ∀ index l cl h key,
  l < length h →
  (∀ j k', index ≤ j → new_key j k' ≠ key) →
  assoc key (deref (transmit_loop index items l cl h).2 l)
  = assoc key (deref h l).
Proof.
  induction items as [|item items IH]; intros index l cl h key Hl Hne; simpl.
  - done.
  - destruct (copy_item_deref index item l h Hl) as [Hlen Hd].
    rewrite IH; [|by rewrite Hlen|intros; apply Hne; lia].
    rewrite Hd. apply copy_fold_miss. intros. by apply Hne.
Qed.

Lemma transmit_loop_binds items : ∀ index l cl h n item k v,
  l < length h →
  items !! n = Some item → assoc k item = Some v →
  assoc (new_key (index + n) k) (deref (transmit_loop index items l cl h).2 l)
  = Some v.
Proof.
  induction items as [|it items IH]; intros index l cl h n item k v Hl Hn Hk.
  - done.
  - simpl. destruct (copy_item_deref index it l h Hl) as [Hlen Hd].
    destruct n as [|n]; simpl in Hn.
    + simplify_eq. rewrite transmit_loop_keeps; [|by rewrite Hlen|].
      * rewrite Hd, Nat.add_0_r. apply copy_fold_hit; [done|].
        left. by eapply assoc_Some_keys.
      * intros j k' Hj E. apply new_key_inj in E as [? _]. lia.
    + replace (index + S n) with (S index + n) by lia.
      eapply IH; [by rewrite Hlen|done..].
Qed.

End TransmitterFacts.

(** ** The transmitter's encoding *)

Module Encoding.
Import Transmitter TransmitterFacts.

(** The list returned has one entry per item, and every entry is the same
    reference: the one dictionary that the loop fills. *)
Lemma course_list_aliases (channel_metadata_items : list dict) (h : store) :
  (_prepare_items_for_transmission channel_metadata_items h).1
  = replicate (length channel_metadata_items) (length h).
Proof. unfold _prepare_items_for_transmission. simpl. by rewrite transmit_loop_list. Qed.

(** Whatever the position [i] in the returned list, the dictionary found
    there binds the key of every field of every item [j]. *)
Lemma every_entry_binds (channel_metadata_items : list dict) (h : store)
    (i j : nat) (item : dict) (k : string) (v : pyobj) :
  i < length channel_metadata_items →
  channel_metadata_items !! j = Some item →
  assoc k item = Some v →
  ∃ l, (_prepare_items_for_transmission channel_metadata_items h).1 !! i = Some l ∧
       assoc (new_key j k)
         (deref (_prepare_items_for_transmission channel_metadata_items h).2 l)
       = Some v.
Proof.
  intros Hi Hj Hk. exists (length h). split.
  - rewrite course_list_aliases. by apply lookup_replicate_2.
  - unfold _prepare_items_for_transmission. simpl.
    apply (transmit_loop_binds _ 0 _ _ _ j item); [|done..].
    rewrite length_app. simpl. lia.
Qed.

Example encode_two_courses :
  let '(course_list, h) := _prepare_items_for_transmission two_courses [] in
  map (deref h) course_list =
  replicate 2 [("courses[0][shortname]", str "CS101");
               ("courses[1][shortname]", str "CS102");
               ("courses[1][fullname]", str "Intro")].
Proof. reflexivity. Qed.

(** C4: for every sequence of items and every item at 0-based position
    [i], the dictionary that the encoding returns at position [i] binds, for
    every field [k] of that item, the key [courses[i][k]] to the item's
    value for [k]. *)
Theorem encode_binds_every_field (channel_metadata_items : list dict)
    (h : store) (i : nat) (item : dict) (k : string) (v : pyobj) :
  channel_metadata_items !! i = Some item →
  assoc k item = Some v →
  ∃ l, (_prepare_items_for_transmission channel_metadata_items h).1 !! i = Some l ∧
       assoc ("courses[" +:+ str_nat i +:+ "][" +:+ k +:+ "]")
         (deref (_prepare_items_for_transmission channel_metadata_items h).2 l)
       = Some v.
Proof.
  intros Hi Hk. apply (every_entry_binds _ _ i i item k v); [|done..].
  by eapply lookup_lt_Some.
Qed.

Lemma encode_binds_every_field_witness :
  ∃ l, (_prepare_items_for_transmission two_courses []).1 !! 1 = Some l ∧
       assoc "courses[1][fullname]"
         (deref (_prepare_items_for_transmission two_courses []).2 l)
       = Some (str "Intro").
Proof.
  apply (encode_binds_every_field two_courses [] 1
           [("shortname", str "CS102"); ("fullname", str "Intro")]
           "fullname" (str "Intro")); reflexivity.
Defined.

(** The entries of the returned list are not dictionaries of their own:
    the dictionary found at position [i] binds the keys of every other item
    [j] as well, because all entries are one and the same dictionary. *)
Theorem encode_entry_holds_other_items_keys (channel_metadata_items : list dict)
    (h : store) (i j : nat) (item : dict) (k : string) (v : pyobj) :
  i < length channel_metadata_items →
  i ≠ j →
  channel_metadata_items !! j = Some item →
  assoc k item = Some v →
  ∃ l, (_prepare_items_for_transmission channel_metadata_items h).1 !! i = Some l ∧
       assoc (new_key j k)
         (deref (_prepare_items_for_transmission channel_metadata_items h).2 l)
       = Some v.
Proof. intros Hi _ Hj Hk. by apply (every_entry_binds _ _ i j item k v). Qed.

Lemma encode_entry_holds_other_items_keys_witness :
  ∃ l, (_prepare_items_for_transmission two_courses []).1 !! 0 = Some l ∧
       assoc "courses[1][shortname]"
         (deref (_prepare_items_for_transmission two_courses []).2 l)
       = Some (str "CS102").
Proof.
  apply (encode_entry_holds_other_items_keys two_courses [] 0 1
           [("shortname", str "CS102"); ("fullname", str "Intro")]
           "shortname" (str "CS102")); [simpl; lia|lia|reflexivity..].
Defined.

End Encoding.

(** ** The monad *)

Lemma bind_run {A B} (m : M A) (f : A → M B) (s : state) :
  (m ≫= f) s =
  match m s with
  | (Ok a, s') => f a s'
  | (Raise e, s') => (Raise e, s')
  end.
Proof. reflexivity. Qed.

Lemma count_app P l1 l2 : count P (l1 ++ l2) = count P l1 + count P l2.
Proof. induction l1 as [|r l1 IH]; simpl; [done|]. rewrite IH. lia. Qed.

Section Sends.

Context {A : Type} (P : request → bool).

Lemma sends_mret (a : A) : sends P 0 (mret a).
Proof. intros s. simpl. lia. Qed.

Lemma sends_raise (e : exn) : sends P 0 (raise e : M A).
Proof. intros s. simpl. lia. Qed.

Lemma sends_lift (o : outcome A) : sends P 0 (lift o).
Proof. intros s. simpl. lia. Qed.

Lemma sends_mono (n n' : nat) (m : M A) : n ≤ n' → sends P n m → sends P n' m.
Proof. intros Hn Hm s. specialize (Hm s). lia. Qed.

Lemma sends_bind {B} (a b : nat) (m : M B) (f : B → M A) :
  sends P a m → (∀ x, sends P b (f x)) → sends P (a + b) (m ≫= f).
Proof.
  intros Hm Hf s. rewrite bind_run. specialize (Hm s).
  destruct (m s) as [[x|e] s']; simpl in *.
  - specialize (Hf x s'). lia.
  - lia.
Qed.

End Sends.

Lemma sends_get_token P : sends P 0 get_token.
Proof. intros s. simpl. lia. Qed.

Lemma sends_set_token P t : sends P 0 (set_token t).
Proof. intros s. simpl. lia. Qed.

Lemma sends_load P l : sends P 0 (load l).
Proof. intros s. simpl. lia. Qed.

Lemma sends_store_at P l d : sends P 0 (store_at l d).
Proof. intros s. simpl. lia. Qed.

Lemma sends_send P env r : sends P (if P r then 1 else 0) (send env r).
Proof.
  intros s. unfold send. destruct (server env _); simpl;
    rewrite count_app; simpl; lia.
Qed.

Lemma sends_raise_for_status P r : sends P 0 (raise_for_status r).
Proof. unfold raise_for_status. destruct (_ && _); [apply sends_raise|apply sends_mret]. Qed.

(** Sequencing where the bound of the whole is the sum of the parts. *)
Ltac sends_step :=
  first
    [ apply sends_mret | apply sends_raise | apply sends_lift
    | apply sends_get_token | apply sends_set_token
    | apply sends_load | apply sends_store_at
    | apply sends_raise_for_status ].

Lemma sends_bind0 {A B} P (n : nat) (m : M B) (f : B → M A) :
  sends P 0 m → (∀ x, sends P n (f x)) → sends P n (m ≫= f).
Proof. intros. by apply (sends_bind P 0 n). Qed.

Lemma sends_bind_last {A B} P (n : nat) (m : M B) (f : B → M A) :
  sends P n m → (∀ x, sends P 0 (f x)) → sends P n (m ≫= f).
Proof. intros. replace n with (n + 0) by lia. by apply sends_bind. Qed.

(** ** The token exchange *)

Section TokenExchange.

Variable env : environment.

(** The exchange changes nothing but the log, to which it adds its one
    request; in particular it does not read the cached token. *)
Lemma _get_access_token_state (s : state) :
  (_get_access_token env s).2
  = State (token s) (sent s ++ [token_request env]) (heap s).
Proof.
  unfold _get_access_token. rewrite bind_run. unfold send.
  destruct (server env _) as [r|]; [|done].
  rewrite bind_run. unfold raise_for_status.
  destruct (_ && _); [done|]. simpl. done.
Qed.

Lemma sends__get_access_token P :
  P (token_request env) = false → sends P 0 (_get_access_token env).
Proof.
  intros HP s. rewrite _get_access_token_state. simpl.
  rewrite count_app. simpl. rewrite HP. lia.
Qed.

Lemma sends_ensure_token P :
  P (token_request env) = false → sends P 0 (ensure_token env).
Proof.
  intros HP. unfold ensure_token.
  apply sends_bind0; [sends_step|]. intros t.
  destruct (negb (truthy t)); [|sends_step].
  apply sends_bind0; [by apply sends__get_access_token|]. intros. sends_step.
Qed.

End TokenExchange.

(** ** The decorator *)

Section Wrapper.

Variable env : environment.

Lemma wrapper_unfold (method : M pyobj) (s : state) :
  moodle_request_wrapper env method s =
  (_ ← ensure_token env ;
   response ← method ;
   body ← lift (call_json response) ;
   error_code ← lift (call_get body "errorcode") ;
   if truthy error_code && eq_str error_code "invalidtoken"
   then
     t' ← _get_access_token env ;
     _ ← set_token t' ;
     method
   else mret response) s.
Proof. reflexivity. Qed.

Lemma sends_wrapper P (n : nat) (method : M pyobj) :
  P (token_request env) = false →
  sends P n method →
  sends P (n + n) (moodle_request_wrapper env method).
Proof.
  intros HP Hm s. rewrite wrapper_unfold. revert s.
  apply sends_bind0; [by apply sends_ensure_token|]. intros _.
  apply sends_bind; [done|]. intros response.
  apply sends_bind0; [sends_step|]. intros body.
  apply sends_bind0; [sends_step|]. intros error_code.
  destruct (_ && _).
  - apply sends_bind0; [by apply sends__get_access_token|]. intros t'.
    apply sends_bind0; [sends_step|]. done.
  - apply (sends_mono _ 0); [lia|sends_step].
Qed.

(** Unless the first run met an expired token, the method is run once. *)
Lemma wrapper_single_run P (n : nat) (method : M pyobj) (s : state) :
  P (token_request env) = false →
  sends P n method →
  token_expired (method (ensure_token env s).2).1 = false →
  count P (sent (moodle_request_wrapper env method s).2) ≤ count P (sent s) + n.
Proof.
  intros HP Hm Hexp. rewrite wrapper_unfold, bind_run.
  pose proof (sends_ensure_token env P HP s) as H0.
  destruct (ensure_token env s) as [[[]|e] s1]; simpl in *; [|lia].
  rewrite bind_run. pose proof (Hm s1) as H1.
  destruct (method s1) as [[response|e] s2]; simpl in *; [|lia].
  rewrite bind_run. unfold lift at 1.
  destruct (call_json response) as [body|e]; simpl; [|lia].
  rewrite bind_run. unfold lift at 1.
  destruct (call_get body "errorcode") as [error_code|e]; simpl; [|lia].
  rewrite Hexp. simpl. lia.
Qed.

Lemma wrapper_at_most_twice P (method : M pyobj) :
  P (token_request env) = false →
  sends P 1 method →
  at_most_twice env P method.
Proof.
  intros HP Hm s. split.
  - apply (sends_wrapper P 1 method HP Hm s).
  - intros Hexp. by apply wrapper_single_run.
Qed.

End Wrapper.

(** ** How many requests an operation sends *)

Section Requests.

Variable env : environment.

Lemma token_request_not_post : is_api_post (token_request env) = false.
Proof. reflexivity. Qed.

Lemma token_request_not_lookup : is_lookup (token_request env) = false.
Proof. reflexivity. Qed.

Lemma lookup_undecorated_posts key :
  sends is_api_post 0 (get_course_id_undecorated env key).
Proof.
  unfold get_course_id_undecorated.
  apply sends_bind0; [sends_step|]. intros t.
  apply sends_bind0; [apply (sends_send is_api_post)|]. intros response.
  apply sends_bind0; [sends_step|]. intros. sends_step.
Qed.

Lemma lookup_undecorated_gets key :
  sends is_lookup 1 (get_course_id_undecorated env key).
Proof.
  unfold get_course_id_undecorated.
  apply sends_bind0; [sends_step|]. intros t.
  apply sends_bind_last; [apply (sends_send is_lookup)|]. intros response.
  apply sends_bind0; [sends_step|]. intros. sends_step.
Qed.

Lemma lookup_posts key : sends is_api_post 0 (get_course_id env key).
Proof.
  apply (sends_wrapper env is_api_post 0);
    [apply token_request_not_post|apply lookup_undecorated_posts].
Qed.

Lemma _post_posts url additional_params :
  sends is_api_post 1 (_post env url additional_params).
Proof.
  unfold _post.
  apply sends_bind0; [sends_step|]. intros t.
  apply sends_bind_last; [apply (sends_send is_api_post)|]. intros. sends_step.
Qed.

Lemma create_undecorated_posts l :
  sends is_api_post 1 (create_content_metadata_undecorated env l).
Proof.
  unfold create_content_metadata_undecorated.
  apply sends_bind0; [sends_step|]. intros d.
  apply sends_bind0; [sends_step|]. intros _.
  apply sends_bind0; [sends_step|]. intros d'.
  apply sends_bind_last; [apply _post_posts|]. intros. sends_step.
Qed.

Lemma update_loop_posts l ks : sends is_api_post 0 (update_loop env l ks).
Proof.
  induction ks as [|key ks IH]; simpl; [sends_step|].
  apply sends_bind0; [|done].
  destruct (contains "shortname" key); [|sends_step].
  apply sends_bind0; [sends_step|]. intros d.
  apply sends_bind0; [sends_step|]. intros v.
  apply sends_bind0; [apply lookup_posts|]. intros id.
  apply sends_bind0; [sends_step|]. intros. sends_step.
Qed.

Lemma update_undecorated_posts l :
  sends is_api_post 1 (update_content_metadata_undecorated env l).
Proof.
  unfold update_content_metadata_undecorated.
  apply sends_bind0; [sends_step|]. intros d.
  apply sends_bind0; [apply update_loop_posts|]. intros _.
  apply sends_bind0; [sends_step|]. intros d'.
  apply sends_bind0; [sends_step|]. intros _.
  apply sends_bind0; [sends_step|]. intros d''.
  apply _post_posts.
Qed.

Lemma delete_loop_posts l ks : ∀ ids, sends is_api_post 0 (delete_loop env l ks ids).
Proof.
  induction ks as [|key ks IH]; intros ids; simpl; [sends_step|].
  destruct (contains "shortname" key); [|done].
  apply sends_bind0; [sends_step|]. intros d.
  apply sends_bind0; [sends_step|]. intros v.
  apply sends_bind0; [apply lookup_posts|]. intros id. done.
Qed.

Lemma delete_undecorated_posts l :
  sends is_api_post 1 (delete_content_metadata_undecorated env l).
Proof.
  unfold delete_content_metadata_undecorated.
  apply sends_bind0; [sends_step|]. intros d.
  apply sends_bind0; [apply delete_loop_posts|]. intros ids.
  apply _post_posts.
Qed.

(** C1: a decorated operation sends its HTTP call at most twice, whatever
    the vendor answers (so also when the answer to the second call is
    again an expired token), and a second time only when the response to
    the first carried the error code ['invalidtoken'].  The call of
    [create_content_metadata], [update_content_metadata] and
    [delete_content_metadata] is the POST of [_post]; that of
    [get_course_id] is its GET. *)
Theorem wrapped_call_runs_at_most_twice (serialized_data : loc) (key : pyobj) :
  at_most_twice env is_api_post
    (create_content_metadata_undecorated env serialized_data) ∧
  at_most_twice env is_api_post
    (update_content_metadata_undecorated env serialized_data) ∧
  at_most_twice env is_api_post
    (delete_content_metadata_undecorated env serialized_data) ∧
  at_most_twice env is_lookup (get_course_id_undecorated env key).
Proof.
  repeat split; try apply wrapper_at_most_twice;
    auto using token_request_not_post, token_request_not_lookup,
      create_undecorated_posts, update_undecorated_posts,
      delete_undecorated_posts, lookup_undecorated_gets.
Qed.

End Requests.

(** ** Course lookup *)

Section Lookup.

Variable env : environment.

Lemma ensure_token_cached (s : state) :
  truthy (token s) = true → ensure_token env s = (Ok (), s).
Proof. intros H. unfold ensure_token. rewrite bind_run. simpl. by rewrite H. Qed.

(** What the undecorated body gives: the id of the first course. *)
Lemma get_course_id_undecorated_run (key : pyobj) (s : state) :
  get_course_id_undecorated env key s =
  let log := sent s ++ [lookup_request env (token s) key] in
  let s' := State (token s) log (heap s) in
  match server env log with
  | None => (Raise ConnectionError, s')
  | Some r =>
      match first_course_id r with
      | Ok id => (Ok (PVal id), s')
      | Raise e => (Raise e, s')
      end
  end.
Proof.
  unfold get_course_id_undecorated. rewrite bind_run. simpl.
  rewrite bind_run. unfold send, lookup_request. simpl.
  destruct (server env _) as [r|]; [|done].
  rewrite bind_run. unfold lift. by destruct (first_course_id r).
Qed.

(** What the decorated method gives when a token is cached: the id of the
    first course is computed, handed to the decorator, and lost there,
    because the decorator asks it for [.json()]. *)
Lemma get_course_id_run (key : pyobj) (s : state) :
  truthy (token s) = true →
  get_course_id env key s =
  let log := sent s ++ [lookup_request env (token s) key] in
  let s' := State (token s) log (heap s) in
  match server env log with
  | None => (Raise ConnectionError, s')
  | Some r =>
      match first_course_id r with
      | Ok id => (Raise AttributeError, s')
      | Raise e => (Raise e, s')
      end
  end.
Proof.
  intros Ht. unfold get_course_id. rewrite wrapper_unfold, bind_run.
  rewrite ensure_token_cached by done. rewrite bind_run.
  rewrite get_course_id_undecorated_run. simpl.
  destruct (server env _) as [r|]; [|done].
  by destruct (first_course_id r).
Qed.

(** The decorated lookup returns on no input at all. *)
Lemma get_course_id_raises (key : pyobj) (s : state) :
  ∃ e, (get_course_id env key s).1 = Raise e.
Proof.
  unfold get_course_id. rewrite wrapper_unfold, bind_run.
  destruct (ensure_token env s) as [[[]|e] s1]; [|by eexists].
  rewrite bind_run, get_course_id_undecorated_run. simpl.
  destruct (server env _) as [r|]; [|by eexists].
  destruct (first_course_id r); by eexists.
Qed.

Lemma api_path_not_prefix (b : string) :
  String.prefix (b +:+ MOODLE_API_PATH) b = false.
Proof.
  induction b as [|c b IH]; [done|]. simpl.
  destruct (Ascii.ascii_dec c c); [|done]. apply IH.
Qed.

(** C5 (what the code does instead): with a token cached and a vendor
    payload whose first course has the id [id], the decorated
    [get_course_id] does not return [id]; it raises [AttributeError]. *)
Theorem lookup_loses_course_id (key : pyobj) (s : state) (r : response) (id : json) :
  truthy (token s) = true →
  server env (sent s ++ [lookup_request env (token s) key]) = Some r →
  first_course_id r = Ok id →
  (get_course_id_undecorated env key s).1 = Ok (PVal id) ∧
  (get_course_id env key s).1 = Raise AttributeError.
Proof.
  intros Ht Hr Hid. split.
  - rewrite get_course_id_undecorated_run. simpl. by rewrite Hr, Hid.
  - rewrite get_course_id_run by done. simpl. by rewrite Hr, Hid.
Qed.

(** C2 (what the code does instead): with a token cached and a vendor
    payload whose course list is empty, [get_course_id] fails with
    [IndexError], the fault of indexing an empty list. *)
Theorem lookup_on_empty_list_is_index_fault (key : pyobj) (s : state)
    (r : response) (payload : json) :
  truthy (token s) = true →
  server env (sent s ++ [lookup_request env (token s) key]) = Some r →
  body r = Some payload →
  getitem_str payload "courses" = Ok (JArr []) →
  (get_course_id env key s).1 = Raise IndexError.
Proof.
  intros Ht Hr Hb Hc. rewrite get_course_id_run by done. simpl.
  rewrite Hr. unfold first_course_id. by rewrite Hb, Hc.
Qed.

(** C9 (what the code does instead): with a token cached,
    [get_course_id] sends one request, and sends it to the base URL
    itself; the API path does not follow the base URL. *)
Theorem lookup_request_misses_api_path (key : pyobj) (s : state) :
  truthy (token s) = true →
  ∃ r, sent (get_course_id env key s).2 = sent s ++ [r] ∧
       meth r = GET ∧
       url r = moodle_base_url (enterprise_configuration env) ∧
       String.prefix
         (moodle_base_url (enterprise_configuration env) +:+ MOODLE_API_PATH)
         (url r) = false.
Proof.
  intros Ht. exists (lookup_request env (token s) key).
  rewrite get_course_id_run by done. simpl. split.
  - destruct (server env _) as [r|]; [|done]. by destruct (first_course_id r).
  - repeat split. apply api_path_not_prefix.
Qed.

End Lookup.

(** ** The token exchange and the retry *)

Section Refresh.

Variable env : environment.

Lemma _get_access_token_run (s : state) :
  _get_access_token env s =
  let log := sent s ++ [token_request env] in
  let s' := State (token s) log (heap s) in
  match server env log with
  | None => (Raise ConnectionError, s')
  | Some r =>
      if (400 <=? status_code r) && (status_code r <? 600)
      then (Raise HTTPError, s')
      else (token_of_response r, s')
  end.
Proof.
  unfold _get_access_token. rewrite bind_run. unfold send. simpl.
  destruct (server env _) as [r|]; [|done].
  rewrite bind_run. unfold raise_for_status. by destruct (_ && _).
Qed.

(** A token that the exchange returns is the [token] field of the decoded
    body of the response; nothing else is ever returned as a token. *)
Lemma token_exchange_returns_token_field (s : state) (t : json) :
  (_get_access_token env s).1 = Ok t →
  ∃ r o, server env (sent s ++ [token_request env]) = Some r ∧
         body r = Some (JObj o) ∧ assoc "token" o = Some t.
Proof.
  rewrite _get_access_token_run. cbv zeta.
  destruct (server env _) as [r|]; [|done].
  destruct (_ && _); [done|]. simpl. unfold token_of_response. simpl.
  destruct (body r) as [[| | | | |o]|] eqn:Hb; simpl; try done.
  destruct (assoc "token" o) as [t'|] eqn:Ho; simpl; [|done].
  intros [= <-]. by exists r, o.
Qed.

(** A body that decodes to something other than a dictionary makes the
    subscript [data['token']] raise [TypeError], which the [except] clause
    lets through. *)
Lemma token_exchange_on_non_dict (s : state) (r : response) (d : json) :
  server env (sent s ++ [token_request env]) = Some r →
  (400 <=? status_code r) && (status_code r <? 600) = false →
  body r = Some d →
  (∀ o, d ≠ JObj o) →
  (_get_access_token env s).1 = Raise TypeError.
Proof.
  intros Hr Hst Hb Hd. rewrite _get_access_token_run. cbv zeta.
  rewrite Hr, Hst. simpl. unfold token_of_response. simpl. rewrite Hb.
  destruct d; try done. by destruct (Hd o).
Qed.

(** The token exchange fails with an exception of the
    [requests.RequestException] family (the authentication error of the
    specification) when the HTTP call fails, when the response has an error
    status, when its body is not JSON, and when its body decodes to a
    dictionary without a [token] field, whatever the status, 200
    included.  No token is returned in any of these cases. *)
Theorem token_exchange_fails_without_token (s : state) :
  server env (sent s ++ [token_request env]) = None ∨
  (∃ r, server env (sent s ++ [token_request env]) = Some r ∧
        ((400 <=? status_code r) && (status_code r <? 600) = true ∨
         body r = None ∨
         ∃ o, body r = Some (JObj o) ∧ assoc "token" o = None)) →
  ∃ e, (_get_access_token env s).1 = Raise e ∧ is_RequestException e = true.
Proof.
  rewrite _get_access_token_run. cbv zeta.
  intros [->|(r & -> & H)]; [by exists ConnectionError|].
  destruct (_ && _) eqn:Hst; [by exists HTTPError|].
  destruct H as [?|[Hb|(o & Hb & Ho)]]; [done|..];
    exists RequestException; simpl; unfold token_of_response; simpl;
    rewrite Hb; simpl; by rewrite ?Ho.
Qed.

(** The retry, for a method that returns the response: when the first
    run of a decorated call returns a response whose
    body carries the error code ['invalidtoken'], the decorator exchanges
    credentials for a token (a request that is sent whatever token was
    cached); when that yields [t'], the cached token becomes [t'] and the
    outcome of the decorated call is the outcome of running the method
    again in that state, returned as it is: the second response is not
    decoded or inspected. *)
Theorem expired_token_is_refreshed_and_call_resent (method : M pyobj)
    (s s0 s1 s2 : state) (response : pyobj) (body : json) (t' : json) :
  ensure_token env s = (Ok (), s0) →
  method s0 = (Ok response, s1) →
  call_json response = Ok body →
  call_get body "errorcode" = Ok (JStr "invalidtoken") →
  _get_access_token env s1 = (Ok t', s2) →
  sent s2 = sent s1 ++ [token_request env] ∧
  moodle_request_wrapper env method s
  = method (State t' (sent s2) (heap s2)).
Proof.
  intros H0 H1 Hj Hg Ht. split.
  - pose proof (_get_access_token_state env s1) as H. rewrite Ht in H.
    simpl in H. by rewrite H.
  - rewrite wrapper_unfold, bind_run, H0, bind_run, H1, bind_run.
    unfold lift at 1. rewrite Hj, bind_run. unfold lift at 1. rewrite Hg.
    simpl. rewrite bind_run, Ht, bind_run. done.
Qed.

(** When the exchange fails, its exception is what the caller gets and
    the method is not run again. *)
Lemma expired_token_refresh_failure (method : M pyobj)
    (s s0 s1 s2 : state) (response : pyobj) (body : json) (e : exn) :
  ensure_token env s = (Ok (), s0) →
  method s0 = (Ok response, s1) →
  call_json response = Ok body →
  call_get body "errorcode" = Ok (JStr "invalidtoken") →
  _get_access_token env s1 = (Raise e, s2) →
  moodle_request_wrapper env method s = (Raise e, s2).
Proof.
  intros H0 H1 Hj Hg Ht.
  rewrite wrapper_unfold, bind_run, H0, bind_run, H1, bind_run.
  unfold lift at 1. rewrite Hj, bind_run. unfold lift at 1. rewrite Hg.
  simpl. by rewrite bind_run, Ht.
Qed.

(** [__init__] keeps a configured token and exchanges credentials only
    when there is none. *)
Lemma init_keeps_configured_token (s : state) :
  truthy (config_token (enterprise_configuration env)) = true →
  __init__ env s
  = (Ok (), State (config_token (enterprise_configuration env)) (sent s) (heap s)).
Proof. intros H. unfold __init__. by rewrite H. Qed.

End Refresh.

(** ** The store under the operations *)

Section InPlace.

Variable env : environment.

Lemma ensure_token_heap (s : state) : heap (ensure_token env s).2 = heap s.
Proof.
  unfold ensure_token. rewrite bind_run. simpl.
  destruct (negb (truthy (token s))); [|done].
  rewrite bind_run. pose proof (_get_access_token_state env s) as H.
  destruct (_get_access_token env s) as [[t|e] s1]; simpl in *; by subst.
Qed.

Lemma _post_heap url additional_params (s : state) :
  heap (_post env url additional_params s).2 = heap s.
Proof.
  unfold _post. rewrite bind_run. simpl. rewrite bind_run. unfold send.
  by destruct (server env _).
Qed.

(** The decorator returns what a first or a second run of the method
    returned. *)
Lemma wrapper_Ok_inv (method : M pyobj) (s s' : state) (r : pyobj) :
  moodle_request_wrapper env method s = (Ok r, s') →
  method (ensure_token env s).2 = (Ok r, s') ∨
  ∃ r1 s1 t,
    method (ensure_token env s).2 = (Ok r1, s1) ∧
    method (State t (sent s1 ++ [token_request env]) (heap s1)) = (Ok r, s').
Proof.
  rewrite wrapper_unfold, bind_run.
  destruct (ensure_token env s) as [[[]|e] s0]; [|done]. simpl.
  rewrite bind_run. destruct (method s0) as [[r1|e] s1] eqn:H1; [|done].
  rewrite bind_run. unfold lift at 1.
  destruct (call_json r1) as [b|e]; [|done].
  rewrite bind_run. unfold lift at 1.
  destruct (call_get b "errorcode") as [ec|e]; [|done].
  destruct (_ && _).
  - rewrite bind_run. pose proof (_get_access_token_state env s1) as Hs.
    destruct (_get_access_token env s1) as [[t|e] s2]; [|done].
    simpl in Hs. subst s2. rewrite bind_run. simpl. intros H2.
    right. by exists r1, s1, t.
  - simpl. intros [= <- <-]. by left.
Qed.

Lemma create_undecorated_heap (l : loc) (s : state) :
  heap (create_content_metadata_undecorated env l s).2
  = set_wsfunction "core_course_create_courses" l (heap s).
Proof.
  unfold create_content_metadata_undecorated.
  rewrite bind_run. simpl. rewrite bind_run. simpl. rewrite bind_run. simpl.
  rewrite bind_run.
  match goal with |- context [_post env ?u ?d ?s0] =>
    pose proof (_post_heap u d s0) as H; destruct (_post env u d s0) as [[r|e] s1]
  end; simpl in *; by rewrite H.
Qed.

(** As soon as a key contains [shortname], the loop of
    [update_content_metadata] ends in an exception: that of the lookup, or
    the [KeyError] of a key that is not there. *)
Lemma update_loop_raises (l : loc) (ks : list string) (s : state) :
  Exists (λ key, contains "shortname" key = true) ks →
  ∃ e, (update_loop env l ks s).1 = Raise e.
Proof.
  induction 1 as [key ks Hk|key ks Hex IH]; simpl; rewrite bind_run.
  - rewrite Hk. rewrite bind_run. simpl. rewrite bind_run. unfold lift at 1.
    destruct (dict_getitem _ key) as [v|e]; [|by eexists].
    rewrite bind_run.
    destruct (get_course_id_raises env v s) as [e He].
    destruct (get_course_id env v s) as [[id|e'] s1]; [done|]. by eexists.
  - destruct (contains "shortname" key) eqn:Hk.
    + rewrite bind_run. simpl. rewrite bind_run. unfold lift at 1.
      destruct (dict_getitem _ key) as [v|e]; [|by eexists].
      rewrite bind_run.
      destruct (get_course_id_raises env v s) as [e He].
      destruct (get_course_id env v s) as [[id|e'] s1]; [done|]. by eexists.
    + simpl. apply IH.
Qed.

Lemma update_loop_skips (l : loc) (ks : list string) (s : state) :
  Forall (λ key, contains "shortname" key = false) ks →
  update_loop env l ks s = (Ok (), s).
Proof.
  induction 1 as [|key ks Hk _ IH]; simpl; [done|].
  rewrite bind_run, Hk. simpl. done.
Qed.

Lemma shortname_keys_dec (ks : list string) :
  Forall (λ key, contains "shortname" key = false) ks ∨
  Exists (λ key, contains "shortname" key = true) ks.
Proof.
  induction ks as [|key ks [IH|IH]].
  - left. constructor.
  - destruct (contains "shortname" key) eqn:Hk.
    + right. by constructor.
    + left. by constructor.
  - right. by constructor 2.
Qed.

Lemma update_undecorated_Ok (l : loc) (s s' : state) (r : pyobj) :
  update_content_metadata_undecorated env l s = (Ok r, s') →
  Forall (λ key, contains "shortname" key = false) (keys (deref (heap s) l)) ∧
  heap s' = set_wsfunction "core_course_update_courses" l (heap s).
Proof.
  unfold update_content_metadata_undecorated. rewrite bind_run. simpl.
  rewrite bind_run.
  destruct (shortname_keys_dec (keys (deref (heap s) l))) as [Hall|Hex].
  - rewrite update_loop_skips by done.
    rewrite bind_run. simpl. rewrite bind_run. simpl. rewrite bind_run. simpl.
    match goal with |- context [_post env ?u ?d ?s0] =>
      pose proof (_post_heap u d s0) as H; destruct (_post env u d s0) as [[r'|e] s1]
    end; simpl in *; intros [= <- <-]. by rewrite H.
  - destruct (update_loop_raises l _ s Hex) as [e He].
    destruct (update_loop env l _ s) as [[[]|e'] s1]; done.
Qed.

End InPlace.

(** After one or two assignments of [wsfunction], the dictionary at [l]
    binds it to the selector, and its other keys are as before. *)
Lemma set_wsfunction_lookup selector (l : loc) (h : store) :
  l < length h →
  length (set_wsfunction selector l h) = length h ∧
  assoc "wsfunction" (deref (set_wsfunction selector l h) l) = Some (str selector) ∧
  ∀ k, k ≠ "wsfunction" →
       assoc k (deref (set_wsfunction selector l h) l) = assoc k (deref h l).
Proof.
  intros Hl. unfold set_wsfunction. rewrite length_insert, deref_insert by done.
  split; [done|]. split; [apply assoc_dict_set_eq|].
  intros k Hk. by apply assoc_dict_set_ne.
Qed.

(** The loop writes into the caller's dictionary: with any lookup that
    returns and leaves the store alone, every key that contains
    [shortname] has its [id] key bound, in the same object, when the loop
    ends, and no key is lost. *)
Lemma assoc_dict_set_is_Some k k' v d :
  k = k' ∨ is_Some (assoc k d) → is_Some (assoc k (dict_set k' v d)).
Proof.
  destruct (decide (k' = k)) as [->|Hne].
  - intros _. by rewrite assoc_dict_set_eq.
  - intros [?|?]; [congruence|]. by rewrite assoc_dict_set_ne.
Qed.

Lemma update_loop_unfold env l ks :
  update_loop env l ks = update_loop_with (get_course_id env) l ks.
Proof. induction ks as [|key ks IH]; simpl; [done|]. by rewrite IH. Qed.

Lemma update_loop_with_injects (lookup : pyobj → M pyobj) (l : loc)
    (ks : list string) : ∀ s s',
  (∀ v s, heap (lookup v s).2 = heap s) →
  l < length (heap s) →
  update_loop_with lookup l ks s = (Ok (), s') →
  length (heap s') = length (heap s) ∧
  (∀ k, is_Some (assoc k (deref (heap s) l)) →
        is_Some (assoc k (deref (heap s') l))) ∧
  (∀ key, key ∈ ks → contains "shortname" key = true →
          is_Some (assoc (replace "shortname" "id" key) (deref (heap s') l))).
Proof.
  induction ks as [|key ks IH]; intros s s' Hframe Hl; simpl.
  - intros [= <-]. split; [done|]. split; [done|].
    intros key H. by apply elem_of_nil in H.
  - rewrite bind_run. destruct (contains "shortname" key) eqn:Hk.
    + rewrite bind_run. simpl. rewrite bind_run. unfold lift at 1.
      destruct (dict_getitem _ key) as [v|e]; [|done].
      rewrite bind_run. pose proof (Hframe v s) as Hf.
      destruct (lookup v s) as [[id|e] s1]; [|done]. simpl in Hf.
      rewrite bind_run. simpl. intros Hrest.
      apply IH in Hrest as (Hlen & Hkeep & Hbind);
        [|done|simpl; rewrite length_insert, Hf; lia].
      simpl in *. rewrite length_insert in Hlen. rewrite Hf in *.
      rewrite deref_insert in Hkeep by done.
      split; [done|]. split.
      * intros k Hs. apply Hkeep, assoc_dict_set_is_Some. by right.
      * intros key' Hin Hk'. apply elem_of_cons in Hin as [->|Hin].
        -- apply Hkeep, assoc_dict_set_is_Some. by left.
        -- by apply Hbind.
    + simpl. intros Hrest.
      apply IH in Hrest as (Hlen & Hkeep & Hbind); [|done..].
      split; [done|]. split; [done|].
      intros key' Hin Hk'. apply elem_of_cons in Hin as [->|Hin]; [congruence|].
      by apply Hbind.
Qed.


(** ** Create and update *)

Section CreateUpdate.

Variable env : environment.

(** C8 (what the code does instead): when a key of the batch contains
    [shortname], [update_content_metadata] ends in an exception and sends
    no POST: the lookup of the id never returns, so no [id] key is added
    and the update is never posted. *)
Theorem update_with_identifier_key_never_posts (serialized_data : loc)
    (s : state) (key : string) :
  key ∈ keys (deref (heap s) serialized_data) →
  contains "shortname" key = true →
  (∃ e, (update_content_metadata env serialized_data s).1 = Raise e) ∧
  count is_api_post (sent (update_content_metadata env serialized_data s).2)
  ≤ count is_api_post (sent s).
Proof.
  intros Hin Hk.
  assert (Exists (λ key, contains "shortname" key = true)
            (keys (deref (heap s) serialized_data))) as Hex.
  { apply Exists_exists. eauto. }
  unfold update_content_metadata. rewrite wrapper_unfold, bind_run.
  pose proof (sends_ensure_token env is_api_post (token_request_not_post env) s) as H0.
  pose proof (ensure_token_heap env s) as Hh.
  destruct (ensure_token env s) as [[[]|e] s0]; simpl in *;
    [|split; [by eexists|lia]].
  rewrite bind_run. unfold update_content_metadata_undecorated.
  rewrite bind_run. simpl. rewrite bind_run, Hh.
  destruct (update_loop_raises env serialized_data _ s0 Hex) as [e He].
  pose proof (update_loop_posts env serialized_data
                (keys (deref (heap s) serialized_data)) s0) as H1.
  destruct (update_loop env serialized_data _ s0) as [[[]|e'] s1]; [done|].
  simpl in *. split; [by eexists|lia].
Qed.

(** The dictionary that the caller handed over is changed where it
    is.  After [create_content_metadata] has returned, it binds
    [wsfunction] to [core_course_create_courses] and its other keys are as
    they were; after [update_content_metadata] has returned, it binds
    [wsfunction] to [core_course_update_courses], and the [id] key of every
    key that contains [shortname]. *)
Theorem batch_is_changed_in_place (serialized_data : loc) (s s' : state)
    (r : pyobj) :
  serialized_data < length (heap s) →
  (create_content_metadata env serialized_data s = (Ok r, s') →
   assoc "wsfunction" (deref (heap s') serialized_data)
   = Some (str "core_course_create_courses") ∧
   ∀ k, k ≠ "wsfunction" →
        assoc k (deref (heap s') serialized_data)
        = assoc k (deref (heap s) serialized_data)) ∧
  (update_content_metadata env serialized_data s = (Ok r, s') →
   assoc "wsfunction" (deref (heap s') serialized_data)
   = Some (str "core_course_update_courses") ∧
   ∀ key, key ∈ keys (deref (heap s) serialized_data) →
          contains "shortname" key = true →
          is_Some (assoc (replace "shortname" "id" key)
                     (deref (heap s') serialized_data))).
Proof.
  intros Hl. split.
  - intros H. apply wrapper_Ok_inv in H.
    pose proof (ensure_token_heap env s) as Hh.
    destruct H as [H|(r1 & s1 & t & H1 & H2)].
    + pose proof (create_undecorated_heap env serialized_data (ensure_token env s).2) as Hc.
      rewrite H, Hh in Hc. simpl in Hc. rewrite Hc.
      by destruct (set_wsfunction_lookup "core_course_create_courses"
                     serialized_data (heap s) Hl) as (_ & ? & ?).
    + pose proof (create_undecorated_heap env serialized_data (ensure_token env s).2) as Hc1.
      rewrite H1, Hh in Hc1. simpl in Hc1.
      pose proof (create_undecorated_heap env serialized_data
                    (State t (sent s1 ++ [token_request env]) (heap s1))) as Hc2.
      rewrite H2 in Hc2. simpl in Hc2. rewrite Hc2, Hc1.
      destruct (set_wsfunction_lookup "core_course_create_courses"
                  serialized_data (heap s) Hl) as (Hlen & _ & Hk1).
      rewrite <- Hlen in Hl.
      destruct (set_wsfunction_lookup "core_course_create_courses"
                  serialized_data _ Hl) as (_ & Hw & Hk2).
      split; [done|]. intros k Hk. by rewrite Hk2, Hk1.
  - intros H. apply wrapper_Ok_inv in H.
    pose proof (ensure_token_heap env s) as Hh.
    destruct H as [H|(r1 & s1 & t & H1 & H2)].
    + apply update_undecorated_Ok in H as [Hall Hu]. rewrite Hh in Hall, Hu.
      rewrite Hu. split.
      * by destruct (set_wsfunction_lookup "core_course_update_courses"
                       serialized_data (heap s) Hl) as (_ & ? & _).
      * intros key Hin Hk. rewrite Forall_forall in Hall.
        specialize (Hall key Hin). congruence.
    + apply update_undecorated_Ok in H1 as [Hall Hu1]. rewrite Hh in Hall, Hu1.
      apply update_undecorated_Ok in H2 as [_ Hu2]. simpl in Hu2.
      rewrite Hu2, Hu1.
      destruct (set_wsfunction_lookup "core_course_update_courses"
                  serialized_data (heap s) Hl) as (Hlen & _ & _).
      rewrite <- Hlen in Hl. split.
      * by destruct (set_wsfunction_lookup "core_course_update_courses"
                       serialized_data _ Hl) as (_ & ? & _).
      * intros key Hin Hk. rewrite Forall_forall in Hall.
        specialize (Hall key Hin). congruence.
Qed.

End CreateUpdate.

(** ** Where the POSTs go *)

Section Urls.

Variable env : environment.

Lemma _post_run url additional_params (s : state) :
  sent (_post env url additional_params s).2
  = sent s ++
    [Request POST
       (url +:+ MOODLE_API_PATH +:+ "?" +:+
        urlencode env
          (dict_update [("wstoken", PVal (token s)); ("moodlewsrestformat", str "json")]
             additional_params))
       [] [] []].
Proof.
  unfold _post. rewrite bind_run. simpl. rewrite bind_run. unfold send. simpl.
  by destruct (server env _).
Qed.

(** A run of [create_content_metadata] posts once, to the base URL
    followed by the API path. *)
Lemma create_posts_to_api_path (l : loc) (s : state) :
  ∃ query,
    sent (create_content_metadata_undecorated env l s).2
    = sent s ++
      [Request POST
         (moodle_base_url (enterprise_configuration env) +:+ MOODLE_API_PATH +:+
          "?" +:+ query)
         [] [] []].
Proof.
  unfold create_content_metadata_undecorated.
  rewrite bind_run. simpl. rewrite bind_run. simpl. rewrite bind_run. simpl.
  rewrite bind_run.
  match goal with |- context [_post env ?u ?d ?s0] =>
    pose proof (_post_run u d s0) as H; destruct (_post env u d s0) as [[r|e] s1]
  end; simpl in *; rewrite H; by eexists.
Qed.

Lemma delete_loop_skips (l : loc) (ks : list string) (ids : dict) (s : state) :
  Forall (λ key, contains "shortname" key = false) ks →
  delete_loop env l ks ids s = (Ok ids, s).
Proof.
  induction 1 as [|key ks Hk _ IH]; simpl; [done|]. by rewrite Hk.
Qed.

Lemma prefix_diverges (b x y : string) (c1 c2 : ascii) :
  c1 ≠ c2 → String.prefix (b +:+ String c1 x) (b +:+ String c2 y) = false.
Proof.
  intros Hc. induction b as [|c b IH]; simpl.
  - by destruct (Ascii.ascii_dec c1 c2).
  - by destruct (Ascii.ascii_dec c c).
Qed.

Lemma string_app_assoc (a b c : string) : (a +:+ b) +:+ c = a +:+ (b +:+ c).
Proof.
  induction a as [|x a IH]; [done|].
  change (String x ((a +:+ b) +:+ c) = String x (a +:+ b +:+ c)).
  by rewrite IH.
Qed.

Lemma prefix_app (p x : string) : String.prefix p (p +:+ x) = true.
Proof.
  induction p as [|c p IH]; simpl; [by destruct x|].
  by destruct (Ascii.ascii_dec c c).
Qed.

Lemma prefix_app_both (a x y : string) :
  String.prefix x y = true → String.prefix (a +:+ x) (a +:+ y) = true.
Proof.
  intros H. induction a as [|c a IH]; simpl; [done|].
  by destruct (Ascii.ascii_dec c c).
Qed.

(** A run of [delete_content_metadata] on a batch without identifier keys
    posts to the base URL followed by a question mark, the (empty) list of
    ids, and only then the API path. *)
Lemma delete_request_misses_api_path (l : loc) (s : state) :
  Forall (λ key, contains "shortname" key = false) (keys (deref (heap s) l)) →
  ∃ r, sent (delete_content_metadata_undecorated env l s).2 = sent s ++ [r] ∧
       String.prefix
         ((moodle_base_url (enterprise_configuration env) +:+ "?" +:+
           urlencode env []) +:+ MOODLE_API_PATH)
         (url r) = true ∧
       String.prefix
         (moodle_base_url (enterprise_configuration env) +:+ MOODLE_API_PATH)
         (url r) = false.
Proof.
  intros Hall. unfold delete_content_metadata_undecorated.
  rewrite bind_run. simpl. rewrite bind_run, delete_loop_skips by done.
  eexists. split; [apply _post_run|]. simpl. split.
  - apply prefix_app_both, (prefix_app MOODLE_API_PATH).
  - rewrite string_app_assoc.
    apply (prefix_diverges _ _ _ "/"%char "?"%char). done.
Qed.

End Urls.

(** ** The properties on concrete runs *)

(** A vendor that rejects every token: the create call is posted twice
    and no more, and the second rejection is what the caller gets. *)
Example rejected_twice_posts_twice :
  (create_content_metadata rejecting 0 client).1 = Ok (PResp token_rejected) ∧
  count is_api_post (sent (create_content_metadata rejecting 0 client).2) = 2 ∧
  token (create_content_metadata rejecting 0 client).2 = JStr "fresh".
Proof. by vm_compute. Qed.

Lemma lookup_on_empty_list_is_index_fault_witness :
  (get_course_id without_courses (str "CS101") client).1 = Raise IndexError.
Proof.
  apply (lookup_on_empty_list_is_index_fault without_courses (str "CS101")
           client no_course (JObj [("courses", JArr [])])); reflexivity.
Defined.

Lemma lookup_loses_course_id_witness :
  (get_course_id_undecorated rejecting (str "CS101") client).1
  = Ok (PVal (JNum 7)) ∧
  (get_course_id rejecting (str "CS101") client).1 = Raise AttributeError.
Proof.
  apply (lookup_loses_course_id rejecting (str "CS101") client
           one_course (JNum 7)); reflexivity.
Defined.

Lemma lookup_request_misses_api_path_witness :
  ∃ r,
    sent (get_course_id rejecting (str "CS101") client).2 = sent client ++ [r] ∧
    meth r = GET ∧
    url r = "http://localhost" ∧
    String.prefix ("http://localhost" +:+ MOODLE_API_PATH) (url r) = false.
Proof.
  apply (lookup_request_misses_api_path rejecting (str "CS101") client).
  reflexivity.
Defined.

Lemma token_exchange_fails_without_token_witness :
  ∃ e, (_get_access_token refusing client).1 = Raise e ∧
       is_RequestException e = true.
Proof.
  apply (token_exchange_fails_without_token refusing client).
  right. exists login_refused. split; [reflexivity|].
  right. right. eexists. split; reflexivity.
Defined.

Lemma expired_token_is_refreshed_and_call_resent_witness :
  ∃ s1 s2,
    create_content_metadata_undecorated rejecting 0 client
    = (Ok (PResp token_rejected), s1) ∧
    sent s2 = sent s1 ++ [token_request rejecting] ∧
    moodle_request_wrapper rejecting
      (create_content_metadata_undecorated rejecting 0) client
    = create_content_metadata_undecorated rejecting 0
        (State (JStr "fresh") (sent s2) (heap s2)).
Proof.
  eexists _, _. split; [reflexivity|].
  eapply (expired_token_is_refreshed_and_call_resent rejecting
            (create_content_metadata_undecorated rejecting 0) client client);
    reflexivity.
Defined.

Lemma update_with_identifier_key_never_posts_witness :
  (∃ e, (update_content_metadata rejecting 0 client).1 = Raise e) ∧
  count is_api_post (sent (update_content_metadata rejecting 0 client).2)
  ≤ count is_api_post (sent client).
Proof.
  apply (update_with_identifier_key_never_posts rejecting 0 client
           "courses[0][shortname]"); [|reflexivity].
  apply list_elem_of_here.
Defined.

(** On the same input the exception is the decorator's [AttributeError],
    and the caller's dictionary is as it was. *)
Example update_with_identifier_key_run :
  (update_content_metadata rejecting 0 client).1 = Raise AttributeError ∧
  heap (update_content_metadata rejecting 0 client).2 = heap client.
Proof. by vm_compute. Qed.

Lemma batch_is_changed_in_place_witness :
  assoc "wsfunction"
    (deref (heap (create_content_metadata rejecting 0 client).2) 0)
  = Some (str "core_course_create_courses") ∧
  assoc "wsfunction"
    (deref (heap (update_content_metadata rejecting 1 client).2) 1)
  = Some (str "core_course_update_courses").
Proof.
  split.
  - refine (proj1 (proj1 (batch_is_changed_in_place rejecting 0 client _
                             (PResp token_rejected) _) _)).
    + simpl. lia.
    + by vm_compute.
  - refine (proj1 (proj2 (batch_is_changed_in_place rejecting 1 client _
                             (PResp token_rejected) _) _)).
    + simpl. lia.
    + by vm_compute.
Defined.

(** * Further properties *)

(** ** The transmitter *)

Module EncodingFacts.
Import Transmitter TransmitterFacts.

Lemma copy_item_other index item items h l :
  items < length h → l ≠ items →
  copy_item index item items h !! l = h !! l.
Proof.
  unfold copy_item. generalize (keys item) as ks. intros ks. revert h.
  induction ks as [|key ks IH]; intros h Hl Hne; simpl; [done|].
  destruct (assoc key item) as [v|]; [|by apply IH].
  rewrite IH; [|by rewrite length_insert|done].
  by apply list_lookup_insert_ne.
Qed.

Lemma transmit_loop_other items : ∀ index l cl h l',
  l < length h → l' ≠ l →
  (transmit_loop index items l cl h).2 !! l' = h !! l' ∧
  length (transmit_loop index items l cl h).2 = length h.
Proof.
  induction items as [|item items IH]; intros index l cl h l' Hl Hne; simpl.
  - done.
  - destruct (copy_item_deref index item l h Hl) as [Hlen _].
    destruct (IH (S index) l (cl ++ [l]) (copy_item index item l h) l')
      as [Hlook Hlen']; [by rewrite Hlen|done|].
    rewrite Hlook, Hlen', Hlen. split; [|done].
    by apply copy_item_other.
Qed.

Lemma copy_fold_sound index item ks : ∀ d key v,
  assoc key (foldl (copy_step index item) d ks) = Some v →
  assoc key d = Some v ∨ ∃ k, assoc k item = Some v ∧ key = new_key index k.
Proof.
  induction ks as [|a ks IH]; intros d key v; simpl; [by left|].
  intros H. apply IH in H as [H|H]; [|by right].
  unfold copy_step in H. destruct (assoc a item) as [va|] eqn:Ha; [|by left].
  destruct (decide (new_key index a = key)) as [<-|Hne].
  - rewrite assoc_dict_set_eq in H. simplify_eq. right. by exists a.
  - rewrite assoc_dict_set_ne in H by done. by left.
Qed.

Lemma transmit_loop_sound items : ∀ index l cl h key v,
  l < length h →
  assoc key (deref (transmit_loop index items l cl h).2 l) = Some v →
  assoc key (deref h l) = Some v ∨
  ∃ n item k, items !! n = Some item ∧ assoc k item = Some v ∧
              key = new_key (index + n) k.
Proof.
  induction items as [|it items IH]; intros index l cl h key v Hl; simpl.
  - by left.
  - destruct (copy_item_deref index it l h Hl) as [Hlen Hd].
    intros H. apply IH in H; [|by rewrite Hlen].
    destruct H as [H|(n & item & k & Hn & Hk & ->)].
    + rewrite Hd in H. apply copy_fold_sound in H as [H|(k & Hk & ->)].
      * by left.
      * right. exists 0, it, k. by rewrite Nat.add_0_r.
    + right. exists (S n), item, k. repeat split; [done..|].
      f_equal. lia.
Qed.

(** X1: the list that the encoding returns has one entry per item, and
    every entry is the same reference, to the one dictionary created by
    the call. *)
Theorem encode_returns_one_reference (channel_metadata_items : list dict)
    (h : store) :
  (_prepare_items_for_transmission channel_metadata_items h).1
  = replicate (length channel_metadata_items) (length h).
Proof. apply Encoding.course_list_aliases. Qed.

(** X2: the dictionary that the encoding fills binds a key to a value
    exactly when the key is [courses[i][k]] for a field [k] of the item at
    position [i] whose value it is; it holds nothing else. *)
Theorem encode_dictionary_content (channel_metadata_items : list dict)
    (h : store) (key : string) (v : pyobj) :
  assoc key
    (deref (_prepare_items_for_transmission channel_metadata_items h).2 (length h))
  = Some v ↔
  ∃ i item k, channel_metadata_items !! i = Some item ∧
              assoc k item = Some v ∧ key = new_key i k.
Proof.
  unfold _prepare_items_for_transmission. simpl.
  assert (length h < length (h ++ [[]])) as Hl.
  { rewrite length_app. simpl. lia. }
  split.
  - intros H. apply transmit_loop_sound in H as [H|H]; [|done|done].
    unfold deref in H. rewrite lookup_app_r, Nat.sub_diag in H by done.
    done.
  - intros (i & item & k & Hi & Hk & ->).
    by apply (transmit_loop_binds _ 0 _ _ _ i item).
Qed.

(** X3: the encoding adds one object to the store and leaves the objects
    that were there as they were. *)
Theorem encode_keeps_the_store (channel_metadata_items : list dict)
    (h : store) (l : loc) :
  l < length h →
  (_prepare_items_for_transmission channel_metadata_items h).2 !! l = h !! l ∧
  length (_prepare_items_for_transmission channel_metadata_items h).2
  = S (length h).
Proof.
  intros Hl. unfold _prepare_items_for_transmission. simpl.
  destruct (transmit_loop_other channel_metadata_items 0 (length h) []
              (h ++ [[]]) l) as [Hlook Hlen].
  { rewrite length_app. simpl. lia. }
  { lia. }
  split.
  - etrans; [apply Hlook|]. by apply lookup_app_l.
  - etrans; [apply Hlen|]. rewrite length_app. simpl. lia.
Qed.

Lemma encode_keeps_the_store_witness :
  (_prepare_items_for_transmission two_courses [[("a", str "b")]]).2 !! 0
  = Some [("a", str "b")] ∧
  length (_prepare_items_for_transmission two_courses [[("a", str "b")]]).2 = 2.
Proof.
  apply (encode_keeps_the_store two_courses [[("a", str "b")]] 0).
  simpl. lia.
Defined.

(** X4: two keys of the encoding are equal only when both the position
    and the field are. *)
Theorem encode_keys_do_not_collide (i j : nat) (k k' : string) :
  new_key i k = new_key j k' → i = j ∧ k = k'.
Proof. apply new_key_inj. Qed.

Lemma encode_keys_do_not_collide_witness : 12 = 12 ∧ "id" = "id".
Proof. apply (encode_keys_do_not_collide 12 12 "id" "id"). reflexivity. Defined.

End EncodingFacts.

(** ** The transmitter's keys under the client's string operations *)

Section IdentifierKeys.
Import Transmitter.

Lemma contains_app_r (sub a t : string) :
  contains sub t = true → contains sub (a +:+ t) = true.
Proof.
  intros H. induction a as [|c a IH]; [done|].
  change (contains sub (String c (a +:+ t)) = true).
  simpl. rewrite IH. apply orb_true_r.
Qed.

Lemma replace_digits (d : Decimal.uint) (rest : string) :
  replace_from "shortname" "id" (NilEmpty.string_of_uint d +:+ rest) 0
  = NilEmpty.string_of_uint d +:+ replace_from "shortname" "id" rest 0.
Proof. induction d; simpl; [done|by rewrite IHd..]. Qed.

(** X5: the key that the transmitter gives to the field [shortname] of
    the item at position [i] is one that [update_content_metadata] and
    [delete_content_metadata] take for an identifier key, and the key
    under which the update stores the id is the transmitter's key for the
    field [id] of the same item. *)
Theorem identifier_key_becomes_id_key (i : nat) :
  contains "shortname" (new_key i "shortname") = true ∧
  replace "shortname" "id" (new_key i "shortname") = new_key i "id".
Proof.
  unfold new_key, str_nat. split.
  - apply (contains_app_r _ "courses["), contains_app_r. reflexivity.
  - unfold replace.
    change (String "c" (String "o" (String "u" (String "r" (String "s"
              (String "e" (String "s" (String "["
                 (replace_from "shortname" "id"
                    (NilEmpty.string_of_uint (Nat.to_uint i) +:+ "][shortname]")
                    0))))))))
            = "courses[" +:+ NilEmpty.string_of_uint (Nat.to_uint i) +:+ "][id]").
    by rewrite replace_digits.
Qed.

End IdentifierKeys.

(** ** What leaves the store alone *)

Section KeepsHeap.

Context {A : Type}.

Lemma keeps_mret (a : A) : keeps_heap (mret a).
Proof. done. Qed.

Lemma keeps_raise (e : exn) : keeps_heap (raise e : M A).
Proof. done. Qed.

Lemma keeps_lift (o : outcome A) : keeps_heap (lift o).
Proof. done. Qed.

Lemma keeps_bind {B} (m : M B) (f : B → M A) :
  keeps_heap m → (∀ x, keeps_heap (f x)) → keeps_heap (m ≫= f).
Proof.
  intros Hm Hf s. rewrite bind_run. specialize (Hm s).
  destruct (m s) as [[x|e] s']; simpl in *; [|done].
  by rewrite Hf.
Qed.

End KeepsHeap.

Ltac keeps_step :=
  first [ apply keeps_mret | apply keeps_raise | apply keeps_lift | done ].

Section Frames.

Variable env : environment.

Lemma keeps_send r : keeps_heap (send env r).
Proof. intros s. unfold send. by destruct (server env _). Qed.

Lemma keeps__get_access_token : keeps_heap (_get_access_token env).
Proof. intros s. by rewrite _get_access_token_state. Qed.

Lemma keeps_ensure_token : keeps_heap (ensure_token env).
Proof. intros s. apply ensure_token_heap. Qed.

Lemma keeps_wrapper (method : M pyobj) :
  keeps_heap method → keeps_heap (moodle_request_wrapper env method).
Proof.
  intros Hm s. rewrite wrapper_unfold. revert s.
  apply keeps_bind; [apply keeps_ensure_token|]. intros _.
  apply keeps_bind; [done|]. intros response.
  apply keeps_bind; [keeps_step|]. intros body.
  apply keeps_bind; [keeps_step|]. intros error_code.
  destruct (_ && _); [|keeps_step].
  apply keeps_bind; [apply keeps__get_access_token|]. intros t'.
  apply keeps_bind; [done|]. done.
Qed.

Lemma keeps_lookup key : keeps_heap (get_course_id env key).
Proof.
  apply keeps_wrapper. unfold get_course_id_undecorated.
  apply keeps_bind; [done|]. intros t.
  apply keeps_bind; [apply keeps_send|]. intros response.
  apply keeps_bind; keeps_step.
Qed.

Lemma keeps__post url additional_params :
  keeps_heap (_post env url additional_params).
Proof. intros s. apply _post_heap. Qed.

Lemma keeps_delete_loop l ks : ∀ ids, keeps_heap (delete_loop env l ks ids).
Proof.
  induction ks as [|key ks IH]; intros ids; simpl; [keeps_step|].
  destruct (contains "shortname" key); [|done].
  apply keeps_bind; [done|]. intros d.
  apply keeps_bind; [keeps_step|]. intros v.
  apply keeps_bind; [apply keeps_lookup|]. done.
Qed.

(** X6: [delete_content_metadata], [get_course_id] and the two
    completion methods never change a dictionary of the caller, whatever
    the vendor answers and however they end; only
    [create_content_metadata] and [update_content_metadata] write to the
    batch. *)
Theorem only_create_and_update_write (serialized_data : loc)
    (key user_id payload : pyobj) (s : state) :
  heap (delete_content_metadata env serialized_data s).2 = heap s ∧
  heap (get_course_id env key s).2 = heap s ∧
  heap (create_course_completion env user_id payload s).2 = heap s ∧
  heap (delete_course_completion env user_id payload s).2 = heap s.
Proof.
  repeat split.
  - apply keeps_wrapper. unfold delete_content_metadata_undecorated.
    apply keeps_bind; [done|]. intros d.
    apply keeps_bind; [apply keeps_delete_loop|]. intros ids.
    apply keeps__post.
  - apply keeps_lookup.
  - apply keeps_wrapper. keeps_step.
  - apply keeps_wrapper. keeps_step.
Qed.

(** The decorated lookup is the undecorated one with its result turned
    into [AttributeError]: there is no second run. *)
Lemma get_course_id_shape (key : pyobj) (s : state) :
  get_course_id env key s =
  match ensure_token env s with
  | (Ok _, s0) =>
      match get_course_id_undecorated env key s0 with
      | (Ok _, s1) => (Raise AttributeError, s1)
      | (Raise e, s1) => (Raise e, s1)
      end
  | (Raise e, s0) => (Raise e, s0)
  end.
Proof.
  unfold get_course_id. rewrite wrapper_unfold, bind_run.
  destruct (ensure_token env s) as [[[]|e] s0]; [|done].
  rewrite bind_run, get_course_id_undecorated_run. cbv zeta.
  destruct (server env _) as [r|]; [|done].
  by destruct (first_course_id r).
Qed.

(** X7: the decorated [get_course_id] returns on no input and in no
    state: it always ends in an exception, and it sends its GET at most
    once. *)
Theorem lookup_always_raises (key : pyobj) (s : state) :
  (∃ e, (get_course_id env key s).1 = Raise e) ∧
  count is_lookup (sent (get_course_id env key s).2) ≤ count is_lookup (sent s) + 1.
Proof.
  rewrite get_course_id_shape.
  pose proof (sends_ensure_token env is_lookup (token_request_not_lookup env) s) as H0.
  destruct (ensure_token env s) as [[[]|e] s0]; simpl in *;
    [|split; [by eexists|lia]].
  pose proof (lookup_undecorated_gets env key s0) as H1.
  destruct (get_course_id_undecorated env key s0) as [[id|e] s1]; simpl in *;
    (split; [by eexists|lia]).
Qed.

(** X8: with a token cached, the two completion methods send nothing and
    end in [AttributeError]: their body returns [None], which the
    decorator takes for a response. *)
Theorem completion_methods_raise (user_id payload : pyobj) (s : state) :
  truthy (token s) = true →
  create_course_completion env user_id payload s = (Raise AttributeError, s) ∧
  delete_course_completion env user_id payload s = (Raise AttributeError, s).
Proof.
  intros Ht. unfold create_course_completion, delete_course_completion.
  rewrite wrapper_unfold, bind_run, ensure_token_cached by done. done.
Qed.

Lemma delete_loop_raises (l : loc) (ks : list string) (s : state) :
  Exists (λ key, contains "shortname" key = true) ks →
  ∀ ids, ∃ e, (delete_loop env l ks ids s).1 = Raise e.
Proof.
  induction 1 as [key ks Hk|key ks Hex IH]; intros ids; simpl.
  - rewrite Hk. rewrite bind_run. simpl. rewrite bind_run. unfold lift at 1.
    destruct (dict_getitem _ key) as [v|e]; [|by eexists].
    rewrite bind_run.
    destruct (get_course_id_raises env v s) as [e He].
    destruct (get_course_id env v s) as [[id|e'] s1]; [done|]. by eexists.
  - destruct (contains "shortname" key) eqn:Hk; [|apply IH].
    rewrite bind_run. simpl. rewrite bind_run. unfold lift at 1.
    destruct (dict_getitem _ key) as [v|e]; [|by eexists].
    rewrite bind_run.
    destruct (get_course_id_raises env v s) as [e He].
    destruct (get_course_id env v s) as [[id|e'] s1]; [done|]. by eexists.
Qed.

(** X9: when a key of the batch contains [shortname],
    [delete_content_metadata] ends in an exception and sends no POST:
    nothing is deleted at the vendor. *)
Theorem delete_with_identifier_key_never_posts (serialized_data : loc)
    (s : state) (key : string) :
  key ∈ keys (deref (heap s) serialized_data) →
  contains "shortname" key = true →
  (∃ e, (delete_content_metadata env serialized_data s).1 = Raise e) ∧
  count is_api_post (sent (delete_content_metadata env serialized_data s).2)
  ≤ count is_api_post (sent s).
Proof.
  intros Hin Hk.
  assert (Exists (λ key, contains "shortname" key = true)
            (keys (deref (heap s) serialized_data))) as Hex.
  { apply Exists_exists. eauto. }
  unfold delete_content_metadata. rewrite wrapper_unfold, bind_run.
  pose proof (sends_ensure_token env is_api_post (token_request_not_post env) s) as H0.
  pose proof (ensure_token_heap env s) as Hh.
  destruct (ensure_token env s) as [[[]|e] s0]; simpl in *;
    [|split; [by eexists|lia]].
  rewrite bind_run. unfold delete_content_metadata_undecorated.
  rewrite bind_run. simpl. rewrite bind_run, Hh.
  destruct (delete_loop_raises serialized_data _ s0 Hex []) as [e He].
  pose proof (delete_loop_posts env serialized_data
                (keys (deref (heap s) serialized_data)) [] s0) as H1.
  destruct (delete_loop env serialized_data _ [] s0) as [[ids|e'] s1]; [done|].
  simpl in *. split; [by eexists|lia].
Qed.

End Frames.

(** ** More on the token exchange and the decorator *)

Section Tokens.

Variable env : environment.

(** X10: the token exchange returns [t] exactly when the vendor answers
    with a status below 400 (or from 600 on) and a body that decodes to a
    dictionary whose [token] field is [t]; the exchange itself does not
    touch the cached token. *)
Theorem token_exchange_returns_iff (s : state) (t : json) :
  ((_get_access_token env s).1 = Ok t ↔
   ∃ r o, server env (sent s ++ [token_request env]) = Some r ∧
          (400 <=? status_code r) && (status_code r <? 600) = false ∧
          body r = Some (JObj o) ∧ assoc "token" o = Some t) ∧
  token (_get_access_token env s).2 = token s.
Proof.
  split; [|by rewrite _get_access_token_state].
  rewrite _get_access_token_run. cbv zeta. split.
  - destruct (server env _) as [r|]; [|done].
    destruct (_ && _) eqn:Hst; [done|]. simpl. unfold token_of_response. simpl.
    destruct (body r) as [[| | | | |o]|] eqn:Hb; simpl; try done.
    destruct (assoc "token" o) as [t'|] eqn:Ho; simpl; [|done].
    intros [= <-]. by exists r, o.
  - intros (r & o & -> & -> & Hb & Ho). simpl.
    unfold token_of_response. simpl. by rewrite Hb; simpl; rewrite Ho.
Qed.

(** X11: the only exception of the token exchange outside the
    [requests.RequestException] family is [TypeError], and it comes from
    a response without error status whose body decodes to something
    other than a dictionary. *)
Theorem token_exchange_other_exception (s : state) (e : exn) :
  (_get_access_token env s).1 = Raise e →
  is_RequestException e = false →
  e = TypeError ∧
  ∃ r d, server env (sent s ++ [token_request env]) = Some r ∧
         (400 <=? status_code r) && (status_code r <? 600) = false ∧
         body r = Some d ∧ ∀ o, d ≠ JObj o.
Proof.
  rewrite _get_access_token_run. cbv zeta.
  destruct (server env _) as [r|]; [|by intros [= <-]].
  destruct (_ && _) eqn:Hst; [by intros [= <-]|].
  simpl. unfold token_of_response. simpl.
  destruct (body r) as [d|] eqn:Hb; simpl; [|by intros [= <-]].
  destruct d as [| | | | |o]; simpl;
    try (intros [= <-] _; split; [done|]; eexists r, _; by repeat split).
  destruct (assoc "token" o); simpl; [done|by intros [= <-]].
Qed.

(** X12: with a token cached, a response whose body is a dictionary
    without the error code ['invalidtoken'] is returned as it is, after one
    run of the method: an error that the vendor reports in the body is
    handed to the caller, not raised. *)
Theorem other_responses_are_returned (method : M pyobj) (s s1 : state)
    (r : response) (o : list (string * json)) :
  truthy (token s) = true →
  method s = (Ok (PResp r), s1) →
  body r = Some (JObj o) →
  eq_str (default JNull (assoc "errorcode" o)) "invalidtoken" = false →
  moodle_request_wrapper env method s = (Ok (PResp r), s1).
Proof.
  intros Ht Hm Hb He.
  rewrite wrapper_unfold, bind_run, ensure_token_cached by done.
  rewrite bind_run, Hm, bind_run. unfold lift at 1. simpl. rewrite Hb.
  rewrite bind_run. unfold lift at 1. simpl. rewrite He.
  by rewrite andb_false_r.
Qed.

(** X13: with a token cached, a response whose body is not a dictionary
    makes the decorated call fail after the method has run:
    [ValueError] when the body is not JSON, [AttributeError] when it
    decodes to a list, a text, a number or [null]. *)
Theorem non_dict_response_raises (method : M pyobj) (s s1 : state)
    (r : response) :
  truthy (token s) = true →
  method s = (Ok (PResp r), s1) →
  (∀ o, body r ≠ Some (JObj o)) →
  moodle_request_wrapper env method s
  = (Raise (match body r with None => ValueError | Some _ => AttributeError end), s1).
Proof.
  intros Ht Hm Hb.
  rewrite wrapper_unfold, bind_run, ensure_token_cached by done.
  rewrite bind_run, Hm, bind_run. unfold lift at 1. simpl.
  destruct (body r) as [d|]; [|done].
  rewrite bind_run. unfold lift at 1.
  destruct d; try done. by destruct (Hb o).
Qed.

(** X14: without a cached token, a failed token exchange ends the
    decorated call with the exchange's exception; the method is not run,
    and the exchange is the only request sent. *)
Theorem no_token_no_call (method : M pyobj) (s : state) (e : exn) :
  truthy (token s) = false →
  (_get_access_token env s).1 = Raise e →
  moodle_request_wrapper env method s
  = (Raise e, State (token s) (sent s ++ [token_request env]) (heap s)).
Proof.
  intros Ht He. rewrite wrapper_unfold, bind_run.
  unfold ensure_token. rewrite bind_run. simpl. rewrite Ht. simpl.
  rewrite bind_run. pose proof (_get_access_token_state env s) as Hs.
  destruct (_get_access_token env s) as [[t|e'] s']; simpl in *; [done|].
  by simplify_eq.
Qed.

(** X15: after a construction that succeeds, the client holds either the
    configured token, and nothing was sent, or the [token] field of the
    vendor's answer to the one exchange that was sent. *)
Theorem init_token_origin (s s' : state) :
  __init__ env s = (Ok (), s') →
  (token s' = config_token (enterprise_configuration env) ∧
   truthy (token s') = true ∧ sent s' = sent s) ∨
  (sent s' = sent s ++ [token_request env] ∧
   ∃ r o, server env (sent s ++ [token_request env]) = Some r ∧
          body r = Some (JObj o) ∧ assoc "token" o = Some (token s')).
Proof.
  unfold __init__.
  destruct (truthy (config_token (enterprise_configuration env))) eqn:Hc.
  - intros [= <-]. left. by simpl.
  - rewrite bind_run.
    pose proof (token_exchange_returns_token_field env s) as Hf.
    pose proof (_get_access_token_state env s) as Hs.
    destruct (_get_access_token env s) as [[t|e] s1]; [|done].
    simpl in *. intros [= <-]. right. subst s1. simpl.
    split; [done|]. by apply Hf.
Qed.

Lemma sends_exchange_any P : sends P 1 (_get_access_token env).
Proof.
  intros s. rewrite _get_access_token_state. simpl.
  rewrite count_app. simpl. destruct (P _); lia.
Qed.

Lemma sends_ensure_any P : sends P 1 (ensure_token env).
Proof.
  unfold ensure_token. apply sends_bind0; [sends_step|]. intros t.
  destruct (negb (truthy t)); [|apply (sends_mono _ 0); [lia|sends_step]].
  apply sends_bind_last; [apply sends_exchange_any|]. intros. sends_step.
Qed.

Lemma sends_wrapper_any P (n : nat) (method : M pyobj) :
  sends P n method →
  sends P (1 + (n + (1 + n))) (moodle_request_wrapper env method).
Proof.
  intros Hm s. rewrite wrapper_unfold. revert s.
  apply sends_bind; [apply sends_ensure_any|]. intros _.
  apply sends_bind; [done|]. intros response.
  apply sends_bind0; [sends_step|]. intros body.
  apply sends_bind0; [sends_step|]. intros error_code.
  destruct (_ && _).
  - apply sends_bind; [apply sends_exchange_any|]. intros t'.
    apply sends_bind0; [sends_step|]. done.
  - apply (sends_mono _ 0); [lia|sends_step].
Qed.

Lemma count_any (log : list request) : count any_request log = length log.
Proof. induction log as [|r log IH]; simpl; [done|]. by rewrite IH. Qed.

(** X16: one call of [create_content_metadata] sends at most four
    requests in all (two POSTs of the batch and two token exchanges), and
    one call of [get_course_id] at most two. *)
Theorem traffic_of_a_call (serialized_data : loc) (key : pyobj) (s : state) :
  length (sent (create_content_metadata env serialized_data s).2)
  ≤ length (sent s) + 4 ∧
  length (sent (get_course_id env key s).2) ≤ length (sent s) + 2.
Proof.
  rewrite <- !count_any. split.
  - apply (sends_wrapper_any any_request 1).
    unfold create_content_metadata_undecorated.
    apply sends_bind0; [sends_step|]. intros d.
    apply sends_bind0; [sends_step|]. intros _.
    apply sends_bind0; [sends_step|]. intros d'.
    apply sends_bind_last; [|intros; sends_step].
    unfold _post. apply sends_bind0; [sends_step|]. intros t.
    apply sends_bind_last; [apply (sends_send any_request)|]. intros. sends_step.
  - rewrite get_course_id_shape.
    pose proof (sends_ensure_any any_request s) as H0.
    destruct (ensure_token env s) as [[[]|e] s0]; simpl in *; [|lia].
    assert (sends any_request 1 (get_course_id_undecorated env key)) as H1.
    { unfold get_course_id_undecorated.
      apply sends_bind0; [sends_step|]. intros t.
      apply sends_bind_last; [apply (sends_send any_request)|]. intros response.
      apply sends_bind0; [sends_step|]. intros. sends_step. }
    specialize (H1 s0).
    destruct (get_course_id_undecorated env key s0) as [[id|e] s1]; simpl in *; lia.
Qed.

End Tokens.

(** ** What is posted *)

Lemma assoc_not_key k (d : dict) : k ∉ keys d → assoc k d = None.
Proof.
  unfold keys. induction d as [|[k' v'] d IH]; simpl; [done|].
  intros H. apply not_elem_of_cons in H as [Hne H].
  apply String.eqb_neq in Hne. rewrite Hne. by apply IH.
Qed.

Lemma keys_dict_set k v (d : dict) k' :
  k' ∈ keys (dict_set k v d) → k' = k ∨ k' ∈ keys d.
Proof.
  unfold keys. induction d as [|[k0 v0] d IH]; simpl.
  - intros H. apply list_elem_of_singleton in H. by left.
  - destruct (String.eqb k k0) eqn:E; simpl.
    + apply String.eqb_eq in E as ->. intros H. by right.
    + intros H. apply elem_of_cons in H as [->|H].
      * right. apply list_elem_of_here.
      * apply IH in H as [?|?]; [by left|]. right. by apply list_elem_of_further.
Qed.

Lemma NoDup_keys_dict_set k v (d : dict) :
  NoDup (keys d) → NoDup (keys (dict_set k v d)).
Proof.
  unfold keys. induction d as [|[k0 v0] d IH]; simpl.
  - intros _. apply NoDup_singleton.
  - intros H. apply NoDup_cons in H as [Hk0 Hd].
    destruct (String.eqb k k0) eqn:E; simpl.
    + apply String.eqb_eq in E as ->. by apply NoDup_cons.
    + apply NoDup_cons. split; [|by apply IH].
      intros H. apply keys_dict_set in H as [->|H]; [|done].
      by rewrite String.eqb_refl in E.
Qed.

(** [d.update(other)]: the bindings of [other] win, the rest of [d] stays. *)
Lemma dict_update_assoc (other : dict) : ∀ (d : dict) k,
  NoDup (keys other) →
  assoc k (dict_update d other)
  = match assoc k other with Some v => Some v | None => assoc k d end.
Proof.
  unfold dict_update, keys.
  induction other as [|[k0 v0] other IH]; intros d k Hnd; simpl; [done|].
  apply NoDup_cons in Hnd as [Hk0 Hnd]. rewrite IH by done.
  destruct (String.eqb k k0) eqn:E.
  - apply String.eqb_eq in E as ->.
    rewrite (assoc_not_key k0 other) by done. apply assoc_dict_set_eq.
  - destruct (assoc k other); [done|]. apply assoc_dict_set_ne.
    intros ->. by rewrite String.eqb_refl in E.
Qed.

Section Posted.

Variable env : environment.

(** X17: [_post] sends one POST to [url] followed by the API path, with
    the parameters of the caller and, unless the caller gives them, the
    cached token as [wstoken] and [json] as [moodlewsrestformat]; a
    [wstoken] or [moodlewsrestformat] among the caller's parameters takes
    the place of the client's. *)
Theorem post_parameters (url0 : string) (additional_params : dict) (s : state)
    (k : string) :
  NoDup (keys additional_params) →
  sent (_post env url0 additional_params s).2
  = sent s ++
    [Request POST
       (url0 +:+ MOODLE_API_PATH +:+ "?" +:+
        urlencode env (post_params (token s) additional_params))
       [] [] []] ∧
  assoc k (post_params (token s) additional_params)
  = match assoc k additional_params with
    | Some v => Some v
    | None =>
        assoc k [("wstoken", PVal (token s)); ("moodlewsrestformat", str "json")]
    end.
Proof.
  intros Hnd. split; [apply _post_run|].
  unfold post_params. by apply dict_update_assoc.
Qed.

Lemma extends_exchange : extends (_get_access_token env).
Proof. intros s. rewrite _get_access_token_state. by eexists. Qed.

(** With a token cached, the first request of a decorated call is the
    first request of the method. *)
Lemma wrapper_first_request (method : M pyobj) (s : state) (r : request) :
  truthy (token s) = true →
  extends method →
  sent (method s).2 = sent s ++ [r] →
  ∃ rest, sent (moodle_request_wrapper env method s).2 = sent s ++ r :: rest.
Proof.
  intros Ht Hext Hr.
  rewrite wrapper_unfold, bind_run, ensure_token_cached by done.
  rewrite bind_run.
  destruct (method s) as [[response|e] s1]; simpl in *; [|by exists []].
  rewrite bind_run. unfold lift at 1.
  destruct (call_json response) as [b|e]; [|by exists []].
  rewrite bind_run. unfold lift at 1.
  destruct (call_get b "errorcode") as [ec|e]; [|by exists []].
  destruct (_ && _); [|by exists []].
  rewrite bind_run. pose proof (_get_access_token_state env s1) as Hs.
  destruct (_get_access_token env s1) as [[t|e] s2]; simpl in *; subst s2;
    [|exists [token_request env]; simpl; by rewrite Hr, <- app_assoc].
  rewrite bind_run. simpl.
  destruct (Hext (State t (sent s1 ++ [token_request env]) (heap s1))) as [more Hm].
  rewrite Hm. simpl. rewrite Hr. exists (token_request env :: more).
  by rewrite <- !app_assoc.
Qed.

Lemma create_undecorated_sent (l : loc) (s : state) :
  sent (create_content_metadata_undecorated env l s).2
  = sent s ++
    [Request POST
       (moodle_base_url (enterprise_configuration env) +:+ MOODLE_API_PATH +:+
        "?" +:+
        urlencode env
          (post_params (token s)
             (deref (set_wsfunction "core_course_create_courses" l (heap s)) l)))
       [] [] []].
Proof.
  unfold create_content_metadata_undecorated.
  rewrite bind_run. simpl. rewrite bind_run. simpl. rewrite bind_run. simpl.
  rewrite bind_run.
  match goal with |- context [_post env ?u ?d ?s0] =>
    pose proof (_post_run env u d s0) as H; destruct (_post env u d s0) as [[r|e] s1]
  end; simpl in *; by rewrite H.
Qed.

Lemma update_undecorated_sent (l : loc) (s : state) :
  Forall (λ key, contains "shortname" key = false) (keys (deref (heap s) l)) →
  sent (update_content_metadata_undecorated env l s).2
  = sent s ++
    [Request POST
       (moodle_base_url (enterprise_configuration env) +:+ MOODLE_API_PATH +:+
        "?" +:+
        urlencode env
          (post_params (token s)
             (deref (set_wsfunction "core_course_update_courses" l (heap s)) l)))
       [] [] []].
Proof.
  intros Hall. unfold update_content_metadata_undecorated.
  rewrite bind_run. simpl. rewrite bind_run, update_loop_skips by done.
  rewrite bind_run. simpl. rewrite bind_run. simpl. rewrite bind_run. simpl.
  match goal with |- context [_post env ?u ?d ?s0] =>
    pose proof (_post_run env u d s0) as H; destruct (_post env u d s0) as [[r|e] s1]
  end; simpl in *; by rewrite H.
Qed.

Lemma extends_bind {A B} (m : M B) (f : B → M A) :
  extends m → (∀ x, extends (f x)) → extends (m ≫= f).
Proof.
  intros Hm Hf s. rewrite bind_run. destruct (Hm s) as [more Hs].
  destruct (m s) as [[x|e] s']; simpl in *; [|by exists more].
  destruct (Hf x s') as [more' Hs']. exists (more ++ more').
  by rewrite Hs', Hs, app_assoc.
Qed.

Lemma extends_pure {A} (m : M A) :
  (∀ s, sent (m s).2 = sent s) → extends m.
Proof. intros H s. exists []. by rewrite H, app_nil_r. Qed.

Lemma extends_send {r} : extends (send env r).
Proof. intros s. exists [r]. unfold send. by destruct (server env _). Qed.

Ltac extends_step :=
  first [ apply extends_send | apply extends_exchange
        | by apply extends_pure ].

Lemma extends_wrapper (method : M pyobj) :
  extends method → extends (moodle_request_wrapper env method).
Proof.
  intros Hm s. rewrite wrapper_unfold. revert s.
  apply extends_bind.
  { unfold ensure_token. apply extends_bind; [extends_step|]. intros t.
    destruct (negb (truthy t)); [|extends_step].
    apply extends_bind; [extends_step|]. intros. extends_step. }
  intros _. apply extends_bind; [done|]. intros response.
  apply extends_bind; [extends_step|]. intros body.
  apply extends_bind; [extends_step|]. intros error_code.
  destruct (_ && _); [|extends_step].
  apply extends_bind; [extends_step|]. intros t'.
  apply extends_bind; [extends_step|]. done.
Qed.

Lemma extends__post url0 additional_params :
  extends (_post env url0 additional_params).
Proof. intros s. rewrite _post_run. by eexists. Qed.

Lemma extends_create_undecorated (l : loc) :
  extends (create_content_metadata_undecorated env l).
Proof. intros s. rewrite create_undecorated_sent. by eexists. Qed.

Lemma extends_lookup key : extends (get_course_id env key).
Proof.
  apply extends_wrapper. unfold get_course_id_undecorated.
  apply extends_bind; [extends_step|]. intros t.
  apply extends_bind; [extends_step|]. intros response.
  apply extends_bind; [extends_step|]. intros. extends_step.
Qed.

Lemma extends_update_loop (l : loc) (ks : list string) :
  extends (update_loop env l ks).
Proof.
  induction ks as [|key ks IH]; simpl; [extends_step|].
  apply extends_bind; [|done].
  destruct (contains "shortname" key); [|extends_step].
  apply extends_bind; [extends_step|]. intros d.
  apply extends_bind; [extends_step|]. intros v.
  apply extends_bind; [apply extends_lookup|]. intros id.
  apply extends_bind; [extends_step|]. intros. extends_step.
Qed.

Lemma extends_update_undecorated (l : loc) :
  extends (update_content_metadata_undecorated env l).
Proof.
  unfold update_content_metadata_undecorated.
  apply extends_bind; [extends_step|]. intros d.
  apply extends_bind; [apply extends_update_loop|]. intros _.
  apply extends_bind; [extends_step|]. intros d'.
  apply extends_bind; [extends_step|]. intros _.
  apply extends_bind; [extends_step|]. intros d''.
  apply extends__post.
Qed.

Lemma extends_delete_loop (l : loc) (ks : list string) :
  ∀ ids, extends (delete_loop env l ks ids).
Proof.
  induction ks as [|key ks IH]; intros ids; simpl; [extends_step|].
  destruct (contains "shortname" key); [|done].
  apply extends_bind; [extends_step|]. intros d.
  apply extends_bind; [extends_step|]. intros v.
  apply extends_bind; [apply extends_lookup|]. done.
Qed.

Lemma extends_delete_undecorated (l : loc) :
  extends (delete_content_metadata_undecorated env l).
Proof.
  unfold delete_content_metadata_undecorated.
  apply extends_bind; [extends_step|]. intros d.
  apply extends_bind; [apply extends_delete_loop|]. intros ids.
  apply extends__post.
Qed.

(** The parameters posted for a batch [d] with the selector [selector]. *)
Lemma batch_params (t : json) (selector : string) (d : dict) :
  NoDup (keys d) →
  assoc "wsfunction" (post_params t (dict_set "wsfunction" (str selector) d))
  = Some (str selector) ∧
  ∀ k v, k ≠ "wsfunction" → assoc k d = Some v →
         assoc k (post_params t (dict_set "wsfunction" (str selector) d)) = Some v.
Proof.
  intros Hnd. unfold post_params. split.
  - rewrite dict_update_assoc by by apply NoDup_keys_dict_set.
    by rewrite assoc_dict_set_eq.
  - intros k v Hk Hv. rewrite dict_update_assoc by by apply NoDup_keys_dict_set.
    rewrite assoc_dict_set_ne by done. by rewrite Hv.
Qed.

(** X18: with a token cached, the first request of
    [create_content_metadata] is a POST to the base URL followed by the
    API path, and its parameters hold [wsfunction] with
    [core_course_create_courses] and every other field of the batch with
    its value. *)
Theorem create_posts_the_batch (serialized_data : loc) (s : state) :
  truthy (token s) = true →
  serialized_data < length (heap s) →
  NoDup (keys (deref (heap s) serialized_data)) →
  ∃ ps rest,
    sent (create_content_metadata env serialized_data s).2
    = sent s ++
      Request POST
        (moodle_base_url (enterprise_configuration env) +:+ MOODLE_API_PATH +:+
         "?" +:+ urlencode env ps) [] [] [] :: rest ∧
    assoc "wsfunction" ps = Some (str "core_course_create_courses") ∧
    ∀ k v, k ≠ "wsfunction" →
           assoc k (deref (heap s) serialized_data) = Some v →
           assoc k ps = Some v.
Proof.
  intros Ht Hl Hnd.
  destruct (wrapper_first_request
              (create_content_metadata_undecorated env serialized_data) s _ Ht
              (extends_create_undecorated serialized_data)
              (create_undecorated_sent serialized_data s)) as [rest Hrest].
  unfold set_wsfunction in Hrest. rewrite deref_insert in Hrest by done.
  eexists _, rest. split; [exact Hrest|]. by apply batch_params.
Qed.

(** X19: with a token cached and no key that contains [shortname], the
    first request of [update_content_metadata] is a POST to the base URL
    followed by the API path, and its parameters hold [wsfunction] with
    [core_course_update_courses] and every other field of the batch with
    its value. *)
Theorem update_posts_the_batch (serialized_data : loc) (s : state) :
  truthy (token s) = true →
  serialized_data < length (heap s) →
  NoDup (keys (deref (heap s) serialized_data)) →
  Forall (λ key, contains "shortname" key = false)
    (keys (deref (heap s) serialized_data)) →
  ∃ ps rest,
    sent (update_content_metadata env serialized_data s).2
    = sent s ++
      Request POST
        (moodle_base_url (enterprise_configuration env) +:+ MOODLE_API_PATH +:+
         "?" +:+ urlencode env ps) [] [] [] :: rest ∧
    assoc "wsfunction" ps = Some (str "core_course_update_courses") ∧
    ∀ k v, k ≠ "wsfunction" →
           assoc k (deref (heap s) serialized_data) = Some v →
           assoc k ps = Some v.
Proof.
  intros Ht Hl Hnd Hall.
  destruct (wrapper_first_request
              (update_content_metadata_undecorated env serialized_data) s _ Ht
              (extends_update_undecorated serialized_data)
              (update_undecorated_sent serialized_data s Hall)) as [rest Hrest].
  unfold set_wsfunction in Hrest. rewrite deref_insert in Hrest by done.
  eexists _, rest. split; [exact Hrest|]. by apply batch_params.
Qed.

(** X20: with a token cached and no key that contains [shortname], the
    first request of [delete_content_metadata] is a POST whose URL is the
    base URL, a question mark, the encoding of an empty list of ids and
    then the API path: the API path does not follow the base URL. *)
Theorem delete_posts_to_a_query (serialized_data : loc) (s : state) :
  truthy (token s) = true →
  Forall (λ key, contains "shortname" key = false)
    (keys (deref (heap s) serialized_data)) →
  ∃ r rest,
    sent (delete_content_metadata env serialized_data s).2 = sent s ++ r :: rest ∧
    meth r = POST ∧
    String.prefix
      ((moodle_base_url (enterprise_configuration env) +:+ "?" +:+
        urlencode env []) +:+ MOODLE_API_PATH)
      (url r) = true ∧
    String.prefix
      (moodle_base_url (enterprise_configuration env) +:+ MOODLE_API_PATH)
      (url r) = false.
Proof.
  intros Ht Hall.
  destruct (delete_request_misses_api_path env serialized_data s Hall)
    as (r & Hr & Hp1 & Hp2).
  destruct (wrapper_first_request
              (delete_content_metadata_undecorated env serialized_data) s r Ht
              (extends_delete_undecorated serialized_data) Hr) as [rest Hrest].
  exists r, rest. repeat split; [done| |done..].
  unfold delete_content_metadata_undecorated in Hr.
  rewrite bind_run in Hr. simpl in Hr.
  rewrite bind_run, delete_loop_skips in Hr by done.
  rewrite _post_run in Hr. apply app_inv_head in Hr. by simplify_eq.
Qed.

End Posted.

(** ** The parameters of a request for coupon codes *)

Module CouponCodesFacts.
Import CouponCodes.

(** X21: [get_required_query_params] returns the four values exactly
    when [email] and [enterprise_name] are both given (not empty);
    [number_of_codes] and [notes] are never required.  Otherwise it raises
    [CodesAPIRequestError], and the message names the required
    parameters that are missing, and only those. *)
Theorem required_query_params (get_request_value : string → json → json) :
  let email := get_request_value "email" (JStr "") in
  let enterprise_name := get_request_value "enterprise_name" (JStr "") in
  let number_of_codes := get_request_value "number_of_codes" (JStr "") in
  let notes := get_request_value "notes" (JStr "") in
  get_required_query_params get_request_value =
  match truthy email, truthy enterprise_name with
  | true, true => Params email enterprise_name number_of_codes notes
  | false, true =>
      CodesAPIRequestError "Some required parameter(s) missing: email"
  | true, false =>
      CodesAPIRequestError "Some required parameter(s) missing: enterprise_name"
  | false, false =>
      CodesAPIRequestError
        "Some required parameter(s) missing: email, enterprise_name"
  end.
Proof.
  intros email enterprise_name number_of_codes notes.
  unfold get_required_query_params.
  fold email enterprise_name number_of_codes notes.
  unfold REQUIRED_PARAM_EMAIL, REQUIRED_PARAM_ENTERPRISE_NAME,
    OPTIONAL_PARAM_NUMBER_OF_CODES, OPTIONAL_PARAM_NOTES.
  fold email enterprise_name number_of_codes notes.
  by destruct (truthy email), (truthy enterprise_name).
Qed.

Example request_without_enterprise_name :
  get_required_query_params nameless_request
  = CodesAPIRequestError "Some required parameter(s) missing: enterprise_name".
Proof. reflexivity. Qed.

End CouponCodesFacts.

(** ** The further properties on concrete runs *)

Lemma completion_methods_raise_witness :
  create_course_completion rejecting (PVal (JNum 3)) (PVal JNull) client
  = (Raise AttributeError, client) ∧
  delete_course_completion rejecting (PVal (JNum 3)) (PVal JNull) client
  = (Raise AttributeError, client).
Proof.
  apply (completion_methods_raise rejecting (PVal (JNum 3)) (PVal JNull) client).
  reflexivity.
Defined.

Lemma delete_with_identifier_key_never_posts_witness :
  (∃ e, (delete_content_metadata rejecting 0 client).1 = Raise e) ∧
  count is_api_post (sent (delete_content_metadata rejecting 0 client).2)
  ≤ count is_api_post (sent client).
Proof.
  apply (delete_with_identifier_key_never_posts rejecting 0 client
           "courses[0][shortname]"); [|reflexivity].
  apply list_elem_of_here.
Defined.

Lemma token_exchange_other_exception_witness :
  TypeError = TypeError ∧
  ∃ r d, server odd_login (sent client ++ [token_request odd_login]) = Some r ∧
         (400 <=? status_code r) && (status_code r <? 600) = false ∧
         body r = Some d ∧ ∀ o, d ≠ JObj o.
Proof.
  apply (token_exchange_other_exception odd_login client TypeError); reflexivity.
Defined.

Lemma other_responses_are_returned_witness :
  create_content_metadata failing 0 client
  = (Ok (PResp invalid_parameter),
     (create_content_metadata_undecorated failing 0 client).2).
Proof.
  apply (other_responses_are_returned failing
           (create_content_metadata_undecorated failing 0) client _
           invalid_parameter [("errorcode", JStr "invalidparameter")]);
    reflexivity.
Defined.

Lemma non_dict_response_raises_witness :
  create_content_metadata accepting 0 client
  = (Raise AttributeError,
     (create_content_metadata_undecorated accepting 0 client).2).
Proof.
  apply (non_dict_response_raises accepting
           (create_content_metadata_undecorated accepting 0) client _ created);
    [reflexivity..|]. intros o. discriminate.
Defined.

Lemma no_token_no_call_witness :
  create_content_metadata unreachable 0 fresh_client
  = (Raise ConnectionError,
     State JNull [token_request unreachable] (heap fresh_client)).
Proof.
  apply (no_token_no_call unreachable
           (create_content_metadata_undecorated unreachable 0) fresh_client
           ConnectionError); reflexivity.
Defined.

Lemma init_token_origin_witness :
  (token client = config_token (enterprise_configuration rejecting) ∧
   truthy (token client) = true ∧ sent client = sent fresh_client) ∨
  (sent client = sent fresh_client ++ [token_request rejecting] ∧
   ∃ r o, server rejecting (sent fresh_client ++ [token_request rejecting]) = Some r ∧
          body r = Some (JObj o) ∧ assoc "token" o = Some (token client)).
Proof.
  apply (init_token_origin rejecting fresh_client client). reflexivity.
Defined.

Lemma post_parameters_witness :
  sent (_post rejecting "http://localhost" [("wstoken", str "other")] client).2
  = sent client ++
    [Request POST
       ("http://localhost" +:+ MOODLE_API_PATH +:+ "?" +:+
        urlencode rejecting
          (post_params (token client) [("wstoken", str "other")]))
       [] [] []] ∧
  assoc "wstoken" (post_params (token client) [("wstoken", str "other")])
  = Some (str "other").
Proof.
  apply (post_parameters rejecting "http://localhost"
           [("wstoken", str "other")] client "wstoken").
  apply NoDup_singleton.
Defined.

Lemma create_posts_the_batch_witness :
  ∃ ps rest,
    sent (create_content_metadata rejecting 0 client).2
    = sent client ++
      Request POST
        ("http://localhost" +:+ MOODLE_API_PATH +:+ "?" +:+
         urlencode rejecting ps) [] [] [] :: rest ∧
    assoc "wsfunction" ps = Some (str "core_course_create_courses") ∧
    ∀ k v, k ≠ "wsfunction" →
           assoc k (deref (heap client) 0) = Some v → assoc k ps = Some v.
Proof.
  apply (create_posts_the_batch rejecting 0 client);
    [reflexivity|simpl; lia|apply NoDup_singleton].
Defined.

Lemma update_posts_the_batch_witness :
  ∃ ps rest,
    sent (update_content_metadata rejecting 1 client).2
    = sent client ++
      Request POST
        ("http://localhost" +:+ MOODLE_API_PATH +:+ "?" +:+
         urlencode rejecting ps) [] [] [] :: rest ∧
    assoc "wsfunction" ps = Some (str "core_course_update_courses") ∧
    ∀ k v, k ≠ "wsfunction" →
           assoc k (deref (heap client) 1) = Some v → assoc k ps = Some v.
Proof.
  apply (update_posts_the_batch rejecting 1 client);
    [reflexivity|simpl; lia|apply NoDup_singleton|].
  repeat constructor.
Defined.

Lemma delete_posts_to_a_query_witness :
  ∃ r rest,
    sent (delete_content_metadata rejecting 1 client).2 = sent client ++ r :: rest ∧
    meth r = POST ∧
    String.prefix
      (("http://localhost" +:+ "?" +:+ urlencode rejecting []) +:+ MOODLE_API_PATH)
      (url r) = true ∧
    String.prefix ("http://localhost" +:+ MOODLE_API_PATH) (url r) = false.
Proof.
  apply (delete_posts_to_a_query rejecting 1 client); [reflexivity|].
  repeat constructor.
Defined.

(** The POST of that deletion, as it is sent. *)
Example delete_url_as_sent :
  url <$> head (sent (delete_content_metadata rejecting 1 client).2)
  = Some "http://localhost?/webservice/rest/server.php?wstoken=cached&moodlewsrestformat=json&wsfunction=core_course_delete_courses".
Proof. by vm_compute. Qed.

(** ** The groups of the encoding *)

Module Grouping.
Import Transmitter TransmitterFacts EncodingFacts.

(** C3: for every sequence of N items, the mapping that the encoding
    produces (every entry of the returned list refers to it) is made of N
    groups of keys, [courses[0][...]] to [courses[N-1][...]], in the order
    of the input: the key [courses[i][k]] is bound exactly when [k] is a
    field of the item at position [i], to that item's value, so that no
    key of another item is in group [i], and every key of the mapping is
    in one of the N groups. *)
Theorem encode_groups_are_the_items (channel_metadata_items : list dict)
    (h : store) :
  (_prepare_items_for_transmission channel_metadata_items h).1
  = replicate (length channel_metadata_items) (length h) ∧
  (∀ i k v,
     assoc (new_key i k)
       (deref (_prepare_items_for_transmission channel_metadata_items h).2
          (length h)) = Some v ↔
     ∃ item, channel_metadata_items !! i = Some item ∧ assoc k item = Some v) ∧
  (∀ key v,
     assoc key
       (deref (_prepare_items_for_transmission channel_metadata_items h).2
          (length h)) = Some v →
     ∃ i k, i < length channel_metadata_items ∧ key = new_key i k).
Proof.
  split; [apply Encoding.course_list_aliases|].
  unfold _prepare_items_for_transmission. simpl.
  assert (length h < length (h ++ [[]])) as Hl.
  { rewrite length_app. simpl. lia. }
  assert (∀ key v, assoc key (deref (h ++ [[]]) (length h)) = Some v → False)
    as Hempty.
  { intros key v. unfold deref.
    by rewrite lookup_app_r, Nat.sub_diag by done. }
  split.
  - intros i k v. split.
    + intros H. apply transmit_loop_sound in H; [|done].
      destruct H as [H|(n & item & k' & Hn & Hk & E)];
        [by destruct (Hempty _ _ H)|].
      apply new_key_inj in E as [-> ->]. by exists item.
    + intros (item & Hi & Hk).
      by apply (transmit_loop_binds _ 0 _ _ _ i item).
  - intros key v H. apply transmit_loop_sound in H; [|done].
    destruct H as [H|(n & item & k & Hn & Hk & ->)];
      [by destruct (Hempty _ _ H)|].
    exists n, k. split; [by eapply lookup_lt_Some|done].
Qed.

End Grouping.

(** ** Where the retry, the token exchange and the update fall short *)

Section Shortfalls.

Variable env : environment.

(** C6 (what the code does instead): a lookup whose token the vendor
    rejects is not retried.  With a token cached, when the vendor answers
    the GET of [get_course_id] with a body that carries the error code
    ['invalidtoken'] (and no course list), the call ends in [KeyError]:
    the GET is the only request sent, no token is exchanged, the cached
    token stays, and nothing is sent again. *)
Theorem expired_lookup_is_not_retried (key : pyobj) (s : state) (r : response)
    (o : list (string * json)) :
  truthy (token s) = true →
  server env (sent s ++ [lookup_request env (token s) key]) = Some r →
  body r = Some (JObj o) →
  assoc "errorcode" o = Some (JStr "invalidtoken") →
  assoc "courses" o = None →
  get_course_id env key s
  = (Raise KeyError,
     State (token s) (sent s ++ [lookup_request env (token s) key]) (heap s)).
Proof.
  intros Ht Hr Hb _ Hc. rewrite get_course_id_run by done. cbv zeta.
  rewrite Hr. unfold first_course_id. rewrite Hb. simpl. by rewrite Hc.
Qed.

(** C7 (what the code does instead): when the vendor answers the token
    exchange without error status and with a body that decodes to
    something other than a dictionary (a list, a text, a number, [null]),
    a body without a [token] field, the exchange fails with [TypeError],
    which is not of the [requests.RequestException] family. *)
Theorem token_exchange_leaks_type_error (s : state) (r : response) (d : json) :
  server env (sent s ++ [token_request env]) = Some r →
  (400 <=? status_code r) && (status_code r <? 600) = false →
  body r = Some d →
  (∀ o, d ≠ JObj o) →
  (_get_access_token env s).1 = Raise TypeError ∧
  is_RequestException TypeError = false.
Proof.
  intros Hr Hst Hb Hd. split; [|done].
  rewrite _get_access_token_run. cbv zeta.
  rewrite Hr, Hst. simpl. unfold token_of_response. simpl. rewrite Hb.
  destruct d; try done. by destruct (Hd o).
Qed.



End Shortfalls.

Lemma expired_lookup_is_not_retried_witness :
  get_course_id expiring (str "CS101") client
  = (Raise KeyError,
     State (token client)
       (sent client ++ [lookup_request expiring (token client) (str "CS101")])
       (heap client)).
Proof.
  apply (expired_lookup_is_not_retried expiring (str "CS101") client
           token_rejected [("errorcode", JStr "invalidtoken")]); reflexivity.
Defined.

Lemma token_exchange_leaks_type_error_witness :
  (_get_access_token odd_login client).1 = Raise TypeError ∧
  is_RequestException TypeError = false.
Proof.
  apply (token_exchange_leaks_type_error odd_login client empty_list (JArr []));
    [reflexivity..|]. intros o. discriminate.
Defined.


(** On that input the dictionary has no [courses[0][id]] afterwards. *)
Example update_leaves_no_id_key :
  assoc "courses[0][id]"
    (deref (heap (update_content_metadata rejecting 0 client).2) 0) = None.
Proof. by vm_compute. Qed.
